(** * AuraVms: the submission workflow and its record store

    A shallow embedding of [backend/src/modules/storage/storage.ts] and
    [backend/src/modules/workflow/workflow.ts], with the properties of
    the approval workflow proved over it, followed by the document
    parser, [backend/src/modules/parser/parser.ts], and the routes of
    the server that call the workflow.

    Conventions of the embedding.
    - A JavaScript string is the list of its UTF-16 code units.
    - A timestamp string produced by [toISOString] is kept as the
      millisecond count it denotes ([ISO ms]); [new Date(s).getTime()]
      reads that count back.
    - The world threaded through the code is the content of the data
      file (the JSON array of submissions) and the wall clock.  The
      clock has millisecond resolution and never runs backwards: every
      reading takes, as an argument, the number of milliseconds elapsed
      since the previous reading (possibly [0]).
    - The file system is reliable: the data file always holds a JSON
      array of submissions and [fs.writeFileSync] succeeds, so the
      [catch] branches of [readData] and [writeData] are never taken.
    - A thrown [Error] is an abrupt completion carrying its message. *)

From stdpp Require Import base numbers list strings pretty sorting.

Local Open Scope Z_scope.

(** ** JavaScript values *)

Abbreviation JsString := (list N).

(** The code units of a (7-bit) string literal. *)
Definition js (s : string) : JsString :=
  Ascii.N_of_ascii <$> String.list_ascii_of_string s.
Arguments js : simpl never.

(** [WhiteSpace] and [LineTerminator] code points of ECMAScript, the
    characters [String.prototype.trim] strips. *)
Definition whitespace_units : list N :=
  [9; 10; 11; 12; 13; 32; 160; 5760;
   8192; 8193; 8194; 8195; 8196; 8197; 8198; 8199; 8200; 8201; 8202;
   8232; 8233; 8239; 8287; 12288; 65279]%N.

Definition is_whitespace (c : N) : bool :=
  bool_decide (c ∈ whitespace_units).

Fixpoint trimStart (s : JsString) : JsString :=
  match s with
  | [] => []
  | c :: s' => if is_whitespace c then trimStart s' else s
  end.

Definition trimEnd (s : JsString) : JsString :=
  reverse (trimStart (reverse s)).

Definition trim (s : JsString) : JsString := trimEnd (trimStart s).

(** Truthiness of a string: only the empty string is falsy. *)
Definition truthy (s : JsString) : bool :=
  match s with [] => false | _ => true end.

(** [Number.prototype.toString] on an integer: its decimal digits. *)
Definition Number_toString (n : Z) : JsString := js (pretty n).

(** An ISO-8601 timestamp string, kept as the instant it denotes. *)
Inductive ISOString := ISO (ms : Z).

Definition getTime (d : ISOString) : Z := let 'ISO ms := d in ms.

Global Instance ISOString_eq_dec : EqDecision ISOString.
Proof. solve_decision. Defined.

Inductive JsError := Error (message : JsString).

(** ** types/index.ts *)

Inductive SubmissionStatus := Pending | Approved | Rejected.

Global Instance SubmissionStatus_eq_dec : EqDecision SubmissionStatus.
Proof. solve_decision. Defined.

(** The string value of each enum member. *)
Definition SubmissionStatus_value (s : SubmissionStatus) : JsString :=
  match s with
  | Pending => js "pending"
  | Approved => js "approved"
  | Rejected => js "rejected"
  end.

Record Submission := {
  id : JsString;
  title : JsString;
  content : JsString;
  imageReference : option JsString;
  embeddedImages : option (list JsString);
  writerEmail : option JsString;
  status : SubmissionStatus;
  createdAt : ISOString;
  updatedAt : ISOString;
}.

Global Instance Submission_eq_dec : EqDecision Submission.
Proof. solve_decision. Defined.

(** ** The world and the computations over it *)

Record World := {
  file : list Submission;   (* content of data/submissions.json *)
  clock : Z;                (* last reading of the wall clock, in ms *)
}.

Inductive Completion (A : Type) :=
  | Normal (a : A)
  | Throw (e : JsError).
Arguments Normal {A} a.
Arguments Throw {A} e.

Definition M (A : Type) : Type := World → Completion A * World.

Definition ret {A} (a : A) : M A := λ w, (Normal a, w).

Definition throw {A} (e : JsError) : M A := λ w, (Throw e, w).

Definition bind {A B} (c : M A) (k : A → M B) : M B :=
  λ w, match c w with
       | (Normal a, w') => k a w'
       | (Throw e, w') => (Throw e, w')
       end.

Notation "'let!' x ':=' c 'in' k" := (bind c (λ x, k))
  (at level 10, x pattern, c at level 100, k at level 200).

(** Reading the clock [elapsed] milliseconds after the previous reading. *)
Definition Date_now (elapsed : N) : M Z :=
  λ w, let t := clock w + Z.of_N elapsed in
       (Normal t, {| file := file w; clock := t |}).

(** [new Date().toISOString()]. *)
Definition new_Date_toISOString (elapsed : N) : M ISOString :=
  let! t := Date_now elapsed in ret (ISO t).

(** ** Array.prototype.sort

    The sort is stable and, for a consistent comparator, leaves [a]
    before [b] unless [cmp a b > 0]; it is rendered as the stable
    insertion sort, which computes that unique result. *)
Section Array_sort.
Context {A : Type} (cmp : A → A → Z).

Fixpoint sort_insert (x : A) (l : list A) : list A :=
  match l with
  | [] => [x]
  | y :: l' => if 0 <? cmp x y then y :: sort_insert x l' else x :: l
  end.

Definition Array_sort (l : list A) : list A := foldr sort_insert [] l.

End Array_sort.

(** ** modules/storage/storage.ts *)

Module Storage.

Definition readData : M (list Submission) := λ w, (Normal (file w), w).

Definition writeData (data : list Submission) : M unit :=
  λ w, (Normal (), {| file := data; clock := clock w |}).

Definition saveSubmission (submission : Submission) : M unit :=
  let! submissions := readData in
  writeData (submissions ++ [submission]).

Definition updateSubmission (submission : Submission) : M unit :=
  let! submissions := readData in
  match list_find (λ s, id s = id submission) submissions with
  | None =>
      throw (Error (js "Submission with ID " ++ id submission ++ js " not found"))
  | Some (index, _) => writeData (<[index := submission]> submissions)
  end.

Definition getSubmission (id0 : JsString) : M (option Submission) :=
  let! submissions := readData in
  ret (snd <$> list_find (λ s, id s = id0) submissions).

(** The comparator handed to [sort]: newest [createdAt] first. *)
Definition byCreatedAtDesc (a b : Submission) : Z :=
  getTime (createdAt b) - getTime (createdAt a).

Definition getAllSubmissions : M (list Submission) :=
  let! submissions := readData in
  ret (Array_sort byCreatedAtDesc submissions).

Definition deleteSubmission (id0 : JsString) : M bool :=
  let! submissions := readData in
  let initialLength := length submissions in
  let filtered := filter (λ s, id s ≠ id0) submissions in
  if (length filtered <? initialLength)%nat
  then let! _ := writeData filtered in ret true
  else ret false.

Definition getSubmissionsByStatus (status0 : SubmissionStatus)
    : M (list Submission) :=
  let! submissions := readData in
  ret (Array_sort byCreatedAtDesc
         (filter (λ s, status s = status0) submissions)).

Record Counts := {
  pending : nat;
  approved : nat;
  rejected : nat;
  total : nat;
}.

Definition getSubmissionCounts : M Counts :=
  let! submissions := readData in
  ret {|
    pending :=
      length (filter (λ s, SubmissionStatus_value (status s) = js "pending")
                submissions);
    approved :=
      length (filter (λ s, SubmissionStatus_value (status s) = js "approved")
                submissions);
    rejected :=
      length (filter (λ s, SubmissionStatus_value (status s) = js "rejected")
                submissions);
    total := length submissions;
  |}.

Definition clearAll : M nat :=
  let! submissions := readData in
  let count := length submissions in
  let! _ := writeData [] in
  ret count.

End Storage.

(** ** modules/workflow/workflow.ts *)

Module WorkflowManager.

Definition validateStatusTransition
    (currentStatus newStatus : SubmissionStatus) : M unit :=
  if decide (currentStatus = newStatus) then ret () else ret ().

(** [elapsed1] and [elapsed2] are the delays before the two clock
    readings, [Date.now()] and [new Date()]. *)
Definition createSubmission (elapsed1 elapsed2 : N)
    (title0 content0 : JsString) (imageReference0 : option JsString)
    (embeddedImages0 : option (list JsString))
    (writerEmail0 : option JsString) : M Submission :=
  if negb (truthy title0) || negb (truthy (trim title0)) then
    throw (Error (js "Title is required and cannot be empty"))
  else if negb (truthy content0) || negb (truthy (trim content0)) then
    throw (Error (js "Content is required and cannot be empty"))
  else
    let! t := Date_now elapsed1 in
    let id0 := Number_toString t in
    let! now := new_Date_toISOString elapsed2 in
    let submission := {|
      id := id0;
      title := trim title0;
      content := trim content0;
      imageReference := imageReference0;
      embeddedImages := embeddedImages0;
      writerEmail := writerEmail0;
      status := Pending;
      createdAt := now;
      updatedAt := now;
    |} in
    let! _ := Storage.saveSubmission submission in
    ret submission.

Definition updateSubmissionStatus (elapsed : N) (submissionId : JsString)
    (newStatus : SubmissionStatus) : M Submission :=
  let! found := Storage.getSubmission submissionId in
  match found with
  | None =>
      throw (Error (js "Submission with ID " ++ submissionId ++ js " not found"))
  | Some submission =>
      let! _ := validateStatusTransition (status submission) newStatus in
      let! now := new_Date_toISOString elapsed in
      let updatedSubmission := {|
        id := id submission;
        title := title submission;
        content := content submission;
        imageReference := imageReference submission;
        embeddedImages := embeddedImages submission;
        writerEmail := writerEmail submission;
        status := newStatus;
        updatedAt := now;
        createdAt := createdAt submission;
      |} in
      let! _ := Storage.updateSubmission updatedSubmission in
      ret updatedSubmission
  end.

Definition getPendingSubmissions : M (list Submission) :=
  Storage.getSubmissionsByStatus Pending.

Definition getAllSubmissions : M (list Submission) :=
  Storage.getAllSubmissions.

Definition getApprovedSubmissions : M (list Submission) :=
  Storage.getSubmissionsByStatus Approved.

Definition getRejectedSubmissions : M (list Submission) :=
  Storage.getSubmissionsByStatus Rejected.

Definition getSubmission (id0 : JsString) : M (option Submission) :=
  Storage.getSubmission id0.

Definition getSubmissionCounts : M Storage.Counts :=
  Storage.getSubmissionCounts.

Definition approveSubmission (elapsed : N) (submissionId : JsString)
    : M Submission :=
  updateSubmissionStatus elapsed submissionId Approved.

Definition rejectSubmission (elapsed : N) (submissionId : JsString)
    : M Submission :=
  updateSubmissionStatus elapsed submissionId Rejected.

Definition deleteSubmission (submissionId : JsString) : M bool :=
  Storage.deleteSubmission submissionId.

End WorkflowManager.

(** ** Regular expressions

    The patterns of the parser use single characters, [.], a negated
    one-character class, [?] and the lazy [*?] and greedy [+] on such
    classes, one capturing group, [^] and [$].  A pattern is the list
    of its nodes; matching backtracks in the order ECMAScript
    prescribes and yields the first match found. *)

Inductive CharSet :=
  | Lit (c : N)        (* that code unit *)
  | Dot                (* [.]: any code unit but a line terminator *)
  | NotLit (c : N).    (* [[^c]] *)

Definition LineTerminators : list N := [10; 13; 8232; 8233]%N.

Definition in_set (cs : CharSet) (c : N) : bool :=
  match cs with
  | Lit a => bool_decide (c = a)
  | Dot => negb (bool_decide (c ∈ LineTerminators))
  | NotLit a => negb (bool_decide (c = a))
  end.

Inductive Node :=
  | One (cs : CharSet)
  | Opt (cs : CharSet)          (* greedy [?] *)
  | LazyStar (cs : CharSet)     (* [*?] *)
  | GreedyPlus (cs : CharSet)   (* [+] *)
  | Open                        (* [(] *)
  | Close                       (* [)] *)
  | Bol                         (* [^] *)
  | Eol.                        (* [$] *)

(** What is left of the input after the match, and the capture. *)
Definition MatchResult : Type := JsString * option JsString.

(** [cs*?] followed by [k]: the continuation is tried first. *)
Fixpoint lazy_star (cs : CharSet) (k : nat → JsString → option MatchResult)
    (pos : nat) (s : JsString) : option MatchResult :=
  match k pos s with
  | Some r => Some r
  | None =>
      match s with
      | c :: s' => if in_set cs c then lazy_star cs k (S pos) s' else None
      | [] => None
      end
  end.

(** [cs*] followed by [k]: the longest run is tried first. *)
Fixpoint greedy_star (cs : CharSet) (k : nat → JsString → option MatchResult)
    (pos : nat) (s : JsString) : option MatchResult :=
  match s with
  | c :: s' =>
      if in_set cs c then
        match greedy_star cs k (S pos) s' with
        | Some r => Some r
        | None => k pos s
        end
      else k pos s
  | [] => k pos s
  end.

(** Matching [re] at index [pos], where [s] is the input from there on,
    [opened] the input from where the group was opened and [cap] the
    capture so far. *)
Fixpoint rmatch (re : list Node) (opened : JsString) (cap : option JsString)
    (pos : nat) (s : JsString) : option MatchResult :=
  match re with
  | [] => Some (s, cap)
  | One cs :: re' =>
      match s with
      | c :: s' => if in_set cs c then rmatch re' opened cap (S pos) s' else None
      | [] => None
      end
  | Opt cs :: re' =>
      match s with
      | c :: s' =>
          if in_set cs c then
            match rmatch re' opened cap (S pos) s' with
            | Some r => Some r
            | None => rmatch re' opened cap pos s
            end
          else rmatch re' opened cap pos s
      | [] => rmatch re' opened cap pos s
      end
  | LazyStar cs :: re' => lazy_star cs (rmatch re' opened cap) pos s
  | GreedyPlus cs :: re' =>
      match s with
      | c :: s' =>
          if in_set cs c
          then greedy_star cs (rmatch re' opened cap) (S pos) s'
          else None
      | [] => None
      end
  | Open :: re' => rmatch re' s cap pos s
  | Close :: re' =>
      rmatch re' opened (Some (take (length opened - length s) opened)) pos s
  | Bol :: re' => if bool_decide (pos = 0%nat) then rmatch re' opened cap pos s else None
  | Eol :: re' =>
      match s with
      | [] => rmatch re' opened cap pos s
      | _ :: _ => None
      end
  end.

(** The first match at or after index [pos]. *)
Fixpoint search (re : list Node) (pos : nat) (s : JsString)
    : option MatchResult :=
  match rmatch re [] None pos s with
  | Some r => Some r
  | None =>
      match s with
      | _ :: s' => search re (S pos) s'
      | [] => None
      end
  end.

(** [str.match(re)] for a pattern without the [g] flag, reduced to what
    the parser reads of it: [null], or element [1] of the result. *)
Definition String_match (re : list Node) (s : JsString)
    : option (option JsString) :=
  snd <$> search re 0 s.

(** [re.test(str)] for a pattern without the [g] flag. *)
Definition RegExp_test (re : list Node) (s : JsString) : bool :=
  bool_decide (is_Some (search re 0 s)).

(** The loop [while ((match = re.exec(str)) !== null) out.push(match[1])]
    for a pattern with the [g] flag: each search resumes where the
    previous match ended.  [fuel] bounds the number of matches. *)
Fixpoint exec_all (fuel : nat) (re : list Node) (pos : nat) (s : JsString)
    : list JsString :=
  match fuel with
  | O => []
  | S fuel' =>
      match search re pos s with
      | None => []
      | Some (rest, cap) =>
          default [] cap
            :: exec_all fuel' re (pos + (length s - length rest)) rest
      end
  end.

(** ** String.prototype.split and Array.prototype.join *)

Fixpoint split (sep : N) (s : JsString) : list JsString :=
  match s with
  | [] => [[]]
  | c :: s' =>
      if bool_decide (c = sep) then [] :: split sep s'
      else match split sep s' with
           | [] => [[c]]
           | l :: ls => (c :: l) :: ls
           end
  end.

Fixpoint join (sep : N) (ls : list JsString) : JsString :=
  match ls with
  | [] => []
  | [l] => l
  | l :: ls' => l ++ sep :: join sep ls'
  end.

(** ** modules/parser/parser.ts *)

Module Parser.

Record ParsedDocument := {
  title : JsString;
  content : JsString;
  imageReference : option JsString;
  embeddedImages : option (list JsString);
}.

(** [/^!\[.*?\]\((.*?)\)$/] *)
Definition IMAGE_REGEX : list Node :=
  [ Bol; One (Lit 33); One (Lit 91); LazyStar Dot; One (Lit 93);
    One (Lit 40); Open; LazyStar Dot; Close; One (Lit 41); Eol ]%N.

(** [/^https?:\/\//] *)
Definition URL_REGEX : list Node :=
  [ Bol; One (Lit 104); One (Lit 116); One (Lit 116); One (Lit 112);
    Opt (Lit 115); One (Lit 58); One (Lit 47); One (Lit 47) ]%N.

(** [/<img[^>]+src=Q([^Q]+)Q/g], with [Q] standing for the double
    quote. *)
Definition imgRegex : list Node :=
  [ One (Lit 60); One (Lit 105); One (Lit 109); One (Lit 103);
    GreedyPlus (NotLit 62);
    One (Lit 115); One (Lit 114); One (Lit 99); One (Lit 61); One (Lit 34);
    Open; GreedyPlus (NotLit 34); Close; One (Lit 34) ]%N.

(** What a call into [fs] or [mammoth] may throw. *)
Inductive Thrown :=
  | ThrownError (message : JsString)   (* an [Error] *)
  | ThrownOther.                       (* any other value *)

(** The module [mammoth], as far as the parser calls it. *)
Record Mammoth := {
  convertToHtml : JsString → Thrown + JsString;     (* [.value] of the result *)
  extractRawText : JsString → Thrown + JsString;    (* [.value] of the result *)
}.

(** The surroundings of the parser: the file system and the dynamic
    import. *)
Record Env := {
  readFileSync : JsString → Thrown + JsString;      (* read as utf-8 *)
  import_mammoth : Thrown + Mammoth;
}.

(** The [try] block: the raw text and the embedded images, or what was
    thrown. *)
Definition readSource (env : Env) (filePath fileType : JsString)
    : Thrown + (JsString * list JsString) :=
  if bool_decide (fileType = js "txt") || bool_decide (fileType = js "md") then
    match readFileSync env filePath with
    | inl t => inl t
    | inr rawContent => inr (rawContent, [])
    end
  else if bool_decide (fileType = js "docx") then
    match import_mammoth env with
    | inl t => inl t
    | inr mammoth =>
        match convertToHtml mammoth filePath with
        | inl t => inl t
        | inr html =>
            let embeddedImages := exec_all (S (length html)) imgRegex 0 html in
            match extractRawText mammoth filePath with
            | inl t => inl t
            | inr rawContent => inr (rawContent, embeddedImages)
            end
        end
    end
  else
    inl (ThrownError (js "Unsupported file type: ." ++ fileType)).

Definition parseDocument (env : Env) (filePath fileType : JsString)
    : JsError + ParsedDocument :=
  if negb (bool_decide (fileType ∈ [js "txt"; js "md"; js "docx"])) then
    inl (Error (js "Unsupported file type: ." ++ fileType
                ++ js ". Supported formats: .txt, .md, .docx"))
  else
    match readSource env filePath fileType with
    | inl t =>
        let errorMessage :=
          match t with
          | ThrownError message => message
          | ThrownOther => js "Unknown error"
          end in
        inl (Error (js "Failed to read file: " ++ errorMessage))
    | inr (rawContent, embeddedImages0) =>
        let lines :=
          filter (λ line, (0 < length line)%nat)
            (trim <$> split 10 rawContent) in
        match lines with
        | [] =>
            inl (Error (js "Document is empty. Please provide a document with at least a title and content."))
        | firstLine :: _ =>
            let '(imageReference0, titleIndex, contentStartIndex) :=
              match String_match IMAGE_REGEX firstLine with
              | Some imageMatch => (imageMatch, 1%nat, 2%nat)
              | None =>
                  if RegExp_test URL_REGEX firstLine
                  then (Some firstLine, 1%nat, 2%nat)
                  else (None, 0%nat, 1%nat)
              end in
            match lines !! titleIndex with
            | None =>
                inl (Error (js "Document must have a title after the image reference. Format: [Image]" ++ [10%N] ++ js "[Title]" ++ [10%N] ++ js "[Content]"))
            | Some title0 =>
                let contentLines := drop contentStartIndex lines in
                let content0 := join 10 contentLines in
                if negb (truthy (trim content0)) then
                  inl (Error (js "Document must contain content after the title. Format: [Title]" ++ [10%N] ++ js "[Content]"))
                else
                  inr {| title := title0;
                         content := content0;
                         imageReference := imageReference0;
                         embeddedImages :=
                           if (0 <? length embeddedImages0)%nat
                           then Some embeddedImages0 else None |}
            end
        end
    end.

End Parser.

(** ** index.ts: the routes that call the workflow

    The routes are taken from where [authenticateToken] has verified
    the JSON web token and set [req.user].  What a route hands to the
    mail service is returned with its response: the hand-off is not
    awaited, and its failure is only logged.  The HTML pages of the
    email links are kept as the template chosen and the values
    interpolated into it.  [crypto] and [Buffer] are taken as given,
    as functions that always return, so the [catch] of
    [verifyEmailToken] is not reached.  The fields a route reads from
    the request are strings or [undefined]. *)

Module Server.

(** The variables of [process.env] the routes read. *)
Record ProcessEnv := {
  env_EMAIL_SECRET : option JsString;
  env_FROM_EMAIL : option JsString;
  env_MANAGER_EMAIL : option JsString;
}.

(** Truthiness of a value that is a string or [undefined]. *)
Definition given (v : option JsString) : bool :=
  match v with Some s => truthy s | None => false end.

(** [v || d] *)
Definition or_else (v : option JsString) (d : JsString) : JsString :=
  match v with
  | Some s => if truthy s then s else d
  | None => d
  end.

Definition EMAIL_SECRET (env : ProcessEnv) : JsString :=
  or_else (env_EMAIL_SECRET env) (js "email-secret-key-for-secure-links").

Record Crypto := {
  (* crypto.createHmac("sha256", key).update(data).digest("hex") *)
  hmac_sha256_hex : JsString → JsString → JsString;
  (* Buffer.from(s).toString("base64url") *)
  to_base64url : JsString → JsString;
  (* Buffer.from(t, "base64url").toString() *)
  from_base64url : JsString → JsString;
}.

Inductive Action := approve | reject.

Global Instance Action_eq_dec : EqDecision Action.
Proof. solve_decision. Defined.

Definition Action_value (a : Action) : JsString :=
  match a with approve => js "approve" | reject => js "reject" end.

Definition generateEmailToken (crypto : Crypto) (env : ProcessEnv)
    (elapsed : N) (submissionId : JsString) (action : Action) : M JsString :=
  let! now := Date_now elapsed in
  let data :=
    submissionId ++ js ":" ++ Action_value action ++ js ":"
      ++ Number_toString now in
  let signature := hmac_sha256_hex crypto (EMAIL_SECRET env) data in
  ret (to_base64url crypto (data ++ js ":" ++ signature)).

Definition verifyEmailToken (crypto : Crypto) (env : ProcessEnv)
    (token : JsString) : option (JsString * Action) :=
  let data := from_base64url crypto token in
  let parts := split 58 data in
  match parts with
  | [submissionId; action; timestamp; signature] =>
      let expectedData :=
        submissionId ++ js ":" ++ action ++ js ":" ++ timestamp in
      let expectedSignature :=
        hmac_sha256_hex crypto (EMAIL_SECRET env) expectedData in
      if bool_decide (signature ≠ expectedSignature) then None
      else if bool_decide (action = js "approve")
           then Some (submissionId, approve)
      else if bool_decide (action = js "reject")
           then Some (submissionId, reject)
      else None
  | _ => None
  end.

(** [req.user], as [authenticateToken] leaves it. *)
Record User := {
  email : JsString;
  role : JsString;
}.

(** The pages of the email links: the template, with the values it
    interpolates. *)
Inductive HtmlPage :=
  | InvalidLink (link : Action)
  | InvalidOrExpiredLink (link : Action)
  | SubmissionNotFound
  | AlreadyProcessed (submission : Submission)
  | ActionCompleted (link : Action) (updatedSubmission : Submission) (now : Z)
  | ServerError (link : Action).

(** The object passed to [res.json], or the page passed to [res.send]. *)
Inductive Body :=
  | ErrorJson (error : JsString)
      (* { error } *)
  | SuccessMessage (message : JsString)
      (* { success: true, message } *)
  | SuccessData (message : JsString) (data : Submission)
      (* { success: true, message, data } *)
  | SuccessOne (data : Submission)
      (* { success: true, data } *)
  | SuccessList (count : nat) (data : list Submission)
      (* { success: true, count, data } *)
  | SuccessListCounts (count : nat) (counts : Storage.Counts)
      (data : list Submission)
      (* { success: true, count, counts, data } *)
  | Html (page : HtmlPage).

Record Response := {
  statusCode : nat;
  body : Body;
}.

(** A call of the mail service. *)
Inductive Mail :=
  | sendApprovalEmailWithTokens (submission : Submission)
      (managerEmail approveToken rejectToken : JsString)
  | sendApprovalConfirmationEmail (submission : Submission) (to : JsString)
  | sendRejectionEmail (submission : Submission) (to : JsString).

Definition Reply : Type := Response * list Mail.

Definition json (code : nat) (b : Body) : M Reply :=
  ret ({| statusCode := code; body := b |}, []).

(** [try { ... } catch (error) { ... }] around a route: every thrown
    value of the model is an [Error]. *)
Definition try_catch (c : M Reply) (handler : JsString → Response)
    : M Reply :=
  λ w, match c w with
       | (Normal r, w') => (Normal r, w')
       | (Throw (Error message), w') => (Normal (handler message, []), w')
       end.

Definition authenticateWriter (user : option User) : option Response :=
  if bool_decide (role <$> user ≠ Some (js "writer")) then
    Some {| statusCode := 403;
            body := ErrorJson (js "Access denied. Writer role required.") |}
  else None.

Definition authenticateManager (user : option User) : option Response :=
  if bool_decide (role <$> user ≠ Some (js "manager")) then
    Some {| statusCode := 403;
            body := ErrorJson (js "Access denied. Manager role required.") |}
  else None.

(** A route guarded by a middleware. *)
Definition guarded (check : option Response) (route : M Reply) : M Reply :=
  match check with
  | Some response => ret (response, [])
  | None => route
  end.

(** [GET /api/email/approve] and [GET /api/email/reject], which differ
    in the action they expect, the transition they apply and the mail
    they send.  [elapsed1] is the delay before the clock reading of the
    transition, [elapsed2] the one before that of the page. *)
Definition email_link (link : Action) (crypto : Crypto) (env : ProcessEnv)
    (elapsed1 elapsed2 : N) (token : option JsString) : M Reply :=
  try_catch
    (match token with
     | None => json 400 (Html (InvalidLink link))
     | Some token =>
         if negb (truthy token) then json 400 (Html (InvalidLink link))
         else
           match verifyEmailToken crypto env token with
           | None => json 400 (Html (InvalidOrExpiredLink link))
           | Some (submissionId, action) =>
               if bool_decide (action ≠ link)
               then json 400 (Html (InvalidOrExpiredLink link))
               else
                 let! submission := WorkflowManager.getSubmission submissionId in
                 match submission with
                 | None => json 404 (Html SubmissionNotFound)
                 | Some submission =>
                     if bool_decide (SubmissionStatus_value (status submission)
                                     ≠ js "pending")
                     then json 200 (Html (AlreadyProcessed submission))
                     else
                       let! updatedSubmission :=
                         match link with
                         | approve =>
                             WorkflowManager.approveSubmission elapsed1 submissionId
                         | reject =>
                             WorkflowManager.rejectSubmission elapsed1 submissionId
                         end in
                       let mails :=
                         match env_FROM_EMAIL env with
                         | Some from =>
                             if truthy from then
                               [match link with
                                | approve =>
                                    sendApprovalConfirmationEmail updatedSubmission from
                                | reject =>
                                    sendRejectionEmail updatedSubmission from
                                end]
                             else []
                         | None => []
                         end in
                       let! now := Date_now elapsed2 in
                       ret ({| statusCode := 200;
                               body := Html (ActionCompleted link updatedSubmission now) |},
                            mails)
                 end
           end
     end)
    (λ _, {| statusCode := 500; body := Html (ServerError link) |}).

(** [POST /api/submit], behind [authenticateWriter].  [elapsed3] and
    [elapsed4] are the delays before the clock readings of the two
    tokens. *)
Definition submit (crypto : Crypto) (env : ProcessEnv) (user : option User)
    (elapsed1 elapsed2 elapsed3 elapsed4 : N)
    (title0 content0 imageReference0 : option JsString)
    (embeddedImages0 : option (list JsString)) : M Reply :=
  guarded (authenticateWriter user)
    (try_catch
       (match title0, content0 with
        | Some title1, Some content1 =>
            if negb (truthy title1) || negb (truthy content1)
            then json 400 (ErrorJson (js "Title and content are required"))
            else
              let writerEmail0 := email <$> user in
              let! submission :=
                WorkflowManager.createSubmission elapsed1 elapsed2
                  title1 content1 imageReference0 embeddedImages0
                  writerEmail0 in
              let managerEmail := env_MANAGER_EMAIL env in
              let! mails :=
                if given managerEmail then
                  let! approveToken :=
                    generateEmailToken crypto env elapsed3
                      (id submission) approve in
                  let! rejectToken :=
                    generateEmailToken crypto env elapsed4
                      (id submission) reject in
                  ret [sendApprovalEmailWithTokens submission
                         (default [] managerEmail) approveToken rejectToken]
                else ret [] in
              ret ({| statusCode := 201;
                      body := SuccessData (js "Submission created successfully")
                                submission |},
                   mails)
        | _, _ => json 400 (ErrorJson (js "Title and content are required"))
        end)
       (λ message, {| statusCode := 400; body := ErrorJson message |})).

(** The filter the listing routes apply for a writer. *)
Definition own (user : option User) (submissions : list Submission)
    : list Submission :=
  if bool_decide (role <$> user = Some (js "writer"))
  then filter (λ sub, writerEmail sub = email <$> user) submissions
  else submissions.

(** [GET /api/submissions/pending] *)
Definition list_pending (user : option User) : M Reply :=
  try_catch
    (let! pendingSubmissions := WorkflowManager.getPendingSubmissions in
     let pendingSubmissions := own user pendingSubmissions in
     json 200 (SuccessList (length pendingSubmissions) pendingSubmissions))
    (λ message, {| statusCode := 500; body := ErrorJson message |}).

(** [GET /api/submissions] *)
Definition list_submissions (user : option User) (status0 : option JsString)
    : M Reply :=
  try_catch
    (let listed (query : M (list Submission)) : M Reply :=
       let! submissions := query in
       let submissions := own user submissions in
       let! counts :=
         if bool_decide (role <$> user = Some (js "writer")) then
           ret {| Storage.total := length submissions;
                  Storage.pending :=
                    length (filter (λ s, SubmissionStatus_value (status s)
                                         = js "pending") submissions);
                  Storage.approved :=
                    length (filter (λ s, SubmissionStatus_value (status s)
                                         = js "approved") submissions);
                  Storage.rejected :=
                    length (filter (λ s, SubmissionStatus_value (status s)
                                         = js "rejected") submissions) |}
         else WorkflowManager.getSubmissionCounts in
       json 200 (SuccessListCounts (length submissions) counts submissions) in
     if given status0 then
       let status1 := default [] status0 in
       if bool_decide (status1 ≠ js "pending")
          && bool_decide (status1 ≠ js "approved")
          && bool_decide (status1 ≠ js "rejected")
       then json 400 (ErrorJson (js "Invalid status. Must be: pending, approved, or rejected"))
       else if bool_decide (status1 = js "pending")
            then listed WorkflowManager.getPendingSubmissions
       else if bool_decide (status1 = js "approved")
            then listed WorkflowManager.getApprovedSubmissions
       else listed WorkflowManager.getRejectedSubmissions
     else listed WorkflowManager.getAllSubmissions)
    (λ message, {| statusCode := 500; body := ErrorJson message |}).

(** [GET /api/submissions/:id] *)
Definition get_submission (user : option User) (id0 : JsString) : M Reply :=
  try_catch
    (let! submission := WorkflowManager.getSubmission id0 in
     match submission with
     | None => json 404 (ErrorJson (js "Submission not found"))
     | Some submission =>
         if bool_decide (role <$> user = Some (js "writer"))
            && bool_decide (writerEmail submission ≠ email <$> user)
         then json 403 (ErrorJson (js "Access denied. You can only view your own submissions."))
         else json 200 (SuccessOne submission)
     end)
    (λ message, {| statusCode := 500; body := ErrorJson message |}).

(** [GET /api/approve] and [GET /api/reject], behind
    [authenticateManager]. *)
Definition decide_route (link : Action) (env : ProcessEnv)
    (user : option User) (elapsed : N) (postId : option JsString) : M Reply :=
  guarded (authenticateManager user)
    (try_catch
       (if negb (given postId)
        then json 400 (ErrorJson (js "post_id query parameter is required"))
        else
          let postId := default [] postId in
          let! submission := WorkflowManager.getSubmission postId in
          match submission with
          | None => json 404 (ErrorJson (js "Submission not found"))
          | Some _ =>
              let! updatedSubmission :=
                match link with
                | approve => WorkflowManager.approveSubmission elapsed postId
                | reject => WorkflowManager.rejectSubmission elapsed postId
                end in
              let mails :=
                match env_FROM_EMAIL env with
                | Some from =>
                    if truthy from then
                      [match link with
                       | approve =>
                           sendApprovalConfirmationEmail updatedSubmission from
                       | reject => sendRejectionEmail updatedSubmission from
                       end]
                    else []
                | None => []
                end in
              ret ({| statusCode := 200;
                      body :=
                        SuccessData
                          match link with
                          | approve => js "Submission approved successfully"
                          | reject => js "Submission rejected successfully"
                          end
                          updatedSubmission |},
                   mails)
          end)
       (λ message, {| statusCode := 400; body := ErrorJson message |})).

(** [DELETE /api/submissions/:id] *)
Definition delete_submission (user : option User) (id0 : JsString)
    : M Reply :=
  try_catch
    (let! submission := WorkflowManager.getSubmission id0 in
     match submission with
     | None => json 404 (ErrorJson (js "Submission not found"))
     | Some submission =>
         if bool_decide (role <$> user = Some (js "writer"))
            && bool_decide (writerEmail submission ≠ email <$> user)
         then json 403 (ErrorJson (js "Access denied. You can only delete your own submissions."))
         else
           let! deleted := WorkflowManager.deleteSubmission id0 in
           if deleted
           then json 200 (SuccessMessage (js "Submission deleted successfully"))
           else json 404 (ErrorJson (js "Submission not found"))
     end)
    (λ message, {| statusCode := 500; body := ErrorJson message |}).

End Server.

(** * Vocabulary of the statements *)

(** [a] may stand before [b]: it is not older. *)
Definition not_older {A} (key : A → Z) (a b : A) : Prop := key b ≤ key a.

(** [a] is listed before [b] only if [a] was not created earlier. *)
Definition newest_first : Submission → Submission → Prop :=
  not_older (λ s, getTime (createdAt s)).

(** What [find] and [findIndex] agree on: the first record with the id. *)
Definition first_with_id (id0 : JsString) (l : list Submission)
    : option (nat * Submission) :=
  list_find (λ s, id s = id0) l.

(** The error a computation threw, if it did. *)
Definition thrown {A} (o : Completion A * World) : option JsError :=
  match o.1 with Normal _ => None | Throw e => Some e end.

(** The record [createSubmission] builds. *)
Definition created (id0 : JsString) (now : ISOString)
    (title0 content0 : JsString) (imageReference0 : option JsString)
    (embeddedImages0 : option (list JsString))
    (writerEmail0 : option JsString) : Submission :=
  {| id := id0; title := trim title0; content := trim content0;
     imageReference := imageReference0; embeddedImages := embeddedImages0;
     writerEmail := writerEmail0; status := Pending;
     createdAt := now; updatedAt := now |}.

(** The record [updateSubmissionStatus] builds from the stored one. *)
Definition transitioned (s : Submission) (newStatus : SubmissionStatus)
    (now : ISOString) : Submission :=
  {| id := id s; title := title s; content := content s;
     imageReference := imageReference s; embeddedImages := embeddedImages s;
     writerEmail := writerEmail s; status := newStatus;
     createdAt := createdAt s; updatedAt := now |}.

(** An empty store on 2026-01-18T10:00:00.000Z. *)
Definition t0 : Z := 1768730400000.
Definition w0 : World := {| file := []; clock := t0 |}.

(** A submission created at that instant, and the store holding it. *)
Definition id_t0 : JsString := js "1768730400000".
Definition created_at_t0 : Submission :=
  created id_t0 (ISO t0) (js "Test") (js "Content") None None None.
Definition w_created : World := {| file := [created_at_t0]; clock := t0 |}.

(** The same submission approved 25 ms later. *)
Definition approved_at_25 : Submission :=
  transitioned created_at_t0 Approved (ISO (t0 + 25)).
Definition w_approved : World :=
  {| file := [approved_at_25]; clock := t0 + 25 |}.

(** Approved again 40 ms after that. *)
Definition approved_at_65 : Submission :=
  transitioned approved_at_25 Approved (ISO (t0 + 65)).
Definition w_reapproved : World :=
  {| file := [approved_at_65]; clock := t0 + 65 |}.

(** Approved in the very millisecond of its creation. *)
Definition approved_at_0 : Submission :=
  transitioned created_at_t0 Approved (ISO t0).

(** Two submissions created in that same millisecond. *)
Definition first_at_t0 : Submission :=
  created id_t0 (ISO t0) (js "Title 1") (js "Content 1") None None None.
Definition second_at_t0 : Submission :=
  created id_t0 (ISO t0) (js "Title 2") (js "Content 2") None None None.

(** The core operations, with the delays of their clock readings, and
    the world each leaves behind, whether it returns or throws. *)
Inductive Operation :=
  | CreateSubmission (elapsed1 elapsed2 : N) (title0 content0 : JsString)
      (imageReference0 : option JsString)
      (embeddedImages0 : option (list JsString))
      (writerEmail0 : option JsString)
  | UpdateSubmissionStatus (elapsed : N) (submissionId : JsString)
      (newStatus : SubmissionStatus)
  | ApproveSubmission (elapsed : N) (submissionId : JsString)
  | RejectSubmission (elapsed : N) (submissionId : JsString)
  | DeleteSubmission (submissionId : JsString).

Definition perform (op : Operation) (w : World) : World :=
  match op with
  | CreateSubmission e1 e2 t c img emb we =>
      (WorkflowManager.createSubmission e1 e2 t c img emb we w).2
  | UpdateSubmissionStatus e i st =>
      (WorkflowManager.updateSubmissionStatus e i st w).2
  | ApproveSubmission e i => (WorkflowManager.approveSubmission e i w).2
  | RejectSubmission e i => (WorkflowManager.rejectSubmission e i w).2
  | DeleteSubmission i => (WorkflowManager.deleteSubmission i w).2
  end.

Fixpoint perform_all (ops : list Operation) (w : World) : World :=
  match ops with
  | [] => w
  | op :: ops' => perform_all ops' (perform op w)
  end.

(** The invariant of a record. *)
Definition well_formed (s : Submission) : Prop :=
  (status s = Pending ∨ status s = Approved ∨ status s = Rejected) ∧
  getTime (createdAt s) ≤ getTime (updatedAt s).

(** Every stored record is well formed and was created no later than
    the last clock reading. *)
Definition stamped_in_past (w : World) : Prop :=
  Forall (λ s, well_formed s ∧ getTime (createdAt s) ≤ clock w) (file w).

(** Create three submissions, approve the first twice, reject it, try a
    blank title and an unknown id, delete the second. *)
Definition session : list Operation :=
  [ CreateSubmission 0 0 (js "A") (js "a") None None None;
    CreateSubmission 1 0 (js "B") (js "b") None None None;
    CreateSubmission 1 2 (js " C ") (js "c") None None (Some (js "w@x.io"));
    ApproveSubmission 0 id_t0;
    UpdateSubmissionStatus 3 id_t0 Approved;
    RejectSubmission 5 id_t0;
    CreateSubmission 0 0 (js "  ") (js "d") None None None;
    ApproveSubmission 1 (js "nonexistent");
    DeleteSubmission (js "1768730400001") ].

(** The ids of the stored records, in file order. *)
Definition stored_ids (w : World) : list JsString :=
  fmap (M := list) id (file w).

(** The count kept for a status. *)
Definition count_of (st : SubmissionStatus) (c : Storage.Counts) : nat :=
  match st with
  | Pending => Storage.pending c
  | Approved => Storage.approved c
  | Rejected => Storage.rejected c
  end.

(** A string that is not empty and neither begins nor ends with a
    white-space character. *)
Definition tidy (s : JsString) : Prop :=
  s ≠ [] ∧
  (∀ c, head s = Some c → is_whitespace c = false) ∧
  (∀ c, last s = Some c → is_whitespace c = false).

(** An operation that, if it is a creation, reads the clock for the id
    at least one millisecond after the previous reading. *)
Definition spaced (op : Operation) : Prop :=
  match op with
  | CreateSubmission e1 _ _ _ _ _ _ => (0 < e1)%N
  | _ => True
  end.

(** Every stored id is the decimal of an instant not ahead of the
    clock. *)
Definition ids_behind_clock (w : World) : Prop :=
  Forall (λ s, ∃ u, id s = Number_toString u ∧ u ≤ clock w) (file w).

(** Three creations a millisecond or more apart, transitions, a refused
    creation and a deletion. *)
Definition spaced_session : list Operation :=
  [ CreateSubmission 1 0 (js "A") (js "a") None None None;
    CreateSubmission 1 0 (js "B") (js "b") None None None;
    ApproveSubmission 0 (js "1768730400001");
    CreateSubmission 2 1 (js "C") (js "c") None None None;
    RejectSubmission 0 (js "1768730400002");
    CreateSubmission 1 0 (js "  ") (js "d") None None None;
    DeleteSubmission (js "1768730400001") ].

(** A line of text: tidy, and without a newline. *)
Definition single_line (l : JsString) : Prop := tidy l ∧ 10%N ∉ l.

(** Surroundings in which every file reads as [raw] and [mammoth]
    cannot be loaded. *)
Definition text_env (raw : JsString) : Parser.Env :=
  {| Parser.readFileSync := λ _, inr raw;
     Parser.import_mammoth := inl Parser.ThrownOther |}.

(** Surroundings in which [mammoth] renders every file as [html] and
    extracts [raw] from it. *)
Definition docx_env (html raw : JsString) : Parser.Env :=
  {| Parser.readFileSync := λ _, inl Parser.ThrownOther;
     Parser.import_mammoth :=
       inr {| Parser.convertToHtml := λ _, inr html;
              Parser.extractRawText := λ _, inr raw |} |}.

(** A report with two pictures, and what the parser makes of it. *)
Definition report_env : Parser.Env :=
  docx_env
    (js "<h1>Report</h1><p><img alt=a src=" ++ [34%N] ++ js "data:image/png;base64,iVBOR"
       ++ [34%N] ++ js " /></p><p>Body</p><img src=" ++ [34%N] ++ js "pic.jpg"
       ++ [34%N] ++ js ">")
    (js "  Report " ++ [10%N; 10%N] ++ js "First paragraph. " ++ [13%N; 10%N]
       ++ js "Second paragraph." ++ [10%N]).

Definition report_parsed : Parser.ParsedDocument :=
  {| Parser.title := js "Report";
     Parser.content := js "First paragraph." ++ [10%N] ++ js "Second paragraph.";
     Parser.imageReference := None;
     Parser.embeddedImages :=
       Some [js "data:image/png;base64,iVBOR"; js "pic.jpg"] |}.

(** The HTML of a document with two pictures, and a third [img]
    that has no quoted [src]. *)
Definition gallery_html : JsString :=
  js "<p><img alt=a src=" ++ [34%N] ++ js "a.png" ++ [34%N]
    ++ js " /></p><img src=none><p>Body</p><img src=" ++ [34%N]
    ++ js "b.jpg" ++ [34%N] ++ js ">".

(** Stand-ins for [crypto] and [Buffer] to run the routes on: a
    constant digest and the identity encoding. *)
Definition toy_crypto : Server.Crypto :=
  {| Server.hmac_sha256_hex := λ _ _, js "5ca1ab1e";
     Server.to_base64url := λ s, s;
     Server.from_base64url := λ s, s |}.

(** What the token functions need of [crypto] and [Buffer] for the
    token that signs [data]: the digest, written in hexadecimal, holds
    no colon, and decoding undoes the encoding of the signed string. *)
Definition codec_ok (crypto : Server.Crypto) (env : Server.ProcessEnv)
    (data : JsString) : Prop :=
  let signature :=
    Server.hmac_sha256_hex crypto (Server.EMAIL_SECRET env) data in
  (58%N ∉ signature) ∧
  (Server.from_base64url crypto
     (Server.to_base64url crypto (data ++ js ":" ++ signature))
   = data ++ js ":" ++ signature).

(** No variable set, and the variables of a deployment. *)
Definition no_env : Server.ProcessEnv :=
  {| Server.env_EMAIL_SECRET := None;
     Server.env_FROM_EMAIL := None;
     Server.env_MANAGER_EMAIL := None |}.

Definition mail_env : Server.ProcessEnv :=
  {| Server.env_EMAIL_SECRET := Some (js "s3cret");
     Server.env_FROM_EMAIL := Some (js "noreply@example.com");
     Server.env_MANAGER_EMAIL := Some (js "manager@example.com") |}.

Definition a_writer : Server.User :=
  {| Server.email := js "writer@example.com"; Server.role := js "writer" |}.

Definition a_manager : Server.User :=
  {| Server.email := js "manager@example.com"; Server.role := js "manager" |}.

(** The desk of two writers: approved and pending submissions of
    [a_writer], and an approved one of somebody else. *)
Definition own_approved : Submission :=
  transitioned
    (created (js "1768730400001") (ISO (t0 + 1)) (js "Mine") (js "a")
       None None (Some (js "writer@example.com")))
    Approved (ISO (t0 + 30)).
Definition own_pending : Submission :=
  created (js "1768730400002") (ISO (t0 + 2)) (js "Mine too") (js "b")
    None None (Some (js "writer@example.com")).
Definition other_approved : Submission :=
  transitioned
    (created (js "1768730400003") (ISO (t0 + 3)) (js "Theirs") (js "c")
       None None (Some (js "other@example.com")))
    Approved (ISO (t0 + 40)).
Definition own_approved_later : Submission :=
  transitioned
    (created (js "1768730400004") (ISO (t0 + 4)) (js "Mine again") (js "d")
       None None (Some (js "writer@example.com")))
    Approved (ISO (t0 + 50)).
Definition w_desk : World :=
  {| file := [own_approved; own_pending; other_approved; own_approved_later];
     clock := t0 + 50 |}.

(** The status an action leads to. *)
Definition decided (link : Server.Action) : SubmissionStatus :=
  match link with
  | Server.approve => Approved
  | Server.reject => Rejected
  end.

(** The mail that confirms a decision, handed over when [FROM_EMAIL]
    is set. *)
Definition confirmation (link : Server.Action) (env : Server.ProcessEnv)
    (updatedSubmission : Submission) : list Server.Mail :=
  match Server.env_FROM_EMAIL env with
  | Some from =>
      if truthy from then
        [match link with
         | Server.approve =>
             Server.sendApprovalConfirmationEmail updatedSubmission from
         | Server.reject => Server.sendRejectionEmail updatedSubmission from
         end]
      else []
  | None => []
  end.

(** A field of the request body that is missing or trims to the empty
    string. *)
Definition blank (v : option JsString) : Prop :=
  match v with
  | Some s => trim s = []
  | None => True
  end.

(** * Properties *)

(** ** The sort *)

Section Array_sort_facts.
Context {A : Type} (cmp : A → A → Z) (key : A → Z).
Hypothesis cmp_key : ∀ a b, cmp a b = key b - key a.

Lemma sort_insert_perm x l : sort_insert cmp x l ≡ₚ x :: l.
Proof.
  induction l as [|y l IH]; simpl; [done|].
  destruct (0 <? cmp x y); [|done].
  rewrite IH. apply Permutation_swap.
Qed.

Lemma Array_sort_perm l : Array_sort cmp l ≡ₚ l.
Proof.
  induction l as [|x l IH]; simpl; [done|].
  by rewrite sort_insert_perm, IH.
Qed.

Lemma sort_insert_sorted x l :
  StronglySorted (not_older key) l → StronglySorted (not_older key) (sort_insert cmp x l).
Proof.
  induction 1 as [|y l Hl IH Hy]; simpl.
  - repeat constructor.
  - rewrite cmp_key. destruct (Z.ltb_spec 0 (key y - key x)).
    + constructor; [done|].
      rewrite sort_insert_perm. constructor; [unfold not_older; lia|done].
    + constructor; [by constructor|].
      constructor; [unfold not_older; lia|].
      eapply Forall_impl; [exact Hy|]. unfold not_older. intros; lia.
Qed.

Lemma Array_sort_sorted l : StronglySorted (not_older key) (Array_sort cmp l).
Proof.
  induction l as [|x l IH]; simpl; [constructor|].
  by apply sort_insert_sorted.
Qed.

Lemma sort_insert_head x l :
  Forall ((not_older key) x) l → sort_insert cmp x l = x :: l.
Proof.
  destruct 1 as [|y l Hy _]; simpl; [done|].
  rewrite cmp_key. unfold not_older in Hy.
  destruct (Z.ltb_spec 0 (key y - key x)); [lia|done].
Qed.

Lemma filter_sort_insert (P : A → Prop) `{!∀ a, Decision (P a)} x l :
  StronglySorted (not_older key) l →
  filter P (sort_insert cmp x l) =
    if decide (P x) then sort_insert cmp x (filter P l) else filter P l.
Proof.
  induction 1 as [|y l Hl IH Hy]; simpl.
  - rewrite filter_cons, filter_nil. by destruct (decide (P x)).
  - rewrite cmp_key. destruct (Z.ltb_spec 0 (key y - key x)) as [Hlt|Hge].
    + rewrite !(filter_cons _ y), IH.
      destruct (decide (P x)), (decide (P y)); simpl; try done.
      rewrite cmp_key. by destruct (Z.ltb_spec 0 (key y - key x)); [|lia].
    + rewrite (filter_cons _ x).
      destruct (decide (P x)); [|done].
      rewrite sort_insert_head; [done|].
      apply Forall_forall. intros z [_ Hz]%list_elem_of_filter.
      apply elem_of_cons in Hz as [->|Hz]; [unfold not_older; lia|].
      rewrite Forall_forall in Hy. specialize (Hy z Hz).
      unfold not_older in *. lia.
Qed.

(** Filtering commutes with the stable sort. *)
Lemma filter_Array_sort (P : A → Prop) `{!∀ a, Decision (P a)} l :
  filter P (Array_sort cmp l) = Array_sort cmp (filter P l).
Proof.
  induction l as [|x l IH]; simpl; [done|].
  rewrite filter_sort_insert by apply Array_sort_sorted.
  rewrite filter_cons. destruct (decide (P x)); simpl; by rewrite IH.
Qed.

End Array_sort_facts.

Lemma byCreatedAtDesc_key a b :
  Storage.byCreatedAtDesc a b = getTime (createdAt b) - getTime (createdAt a).
Proof. reflexivity. Qed.

(** C7. [getAllSubmissions] returns every record of the store, newest
    [createdAt] first, and [getSubmissionsByStatus s] returns exactly
    the records of status [s], in the order they have in that list. *)
Theorem getAllSubmissions_newest_first (w : World) (s : SubmissionStatus) :
  ∃ all byStatus,
    Storage.getAllSubmissions w = (Normal all, w) ∧
    Storage.getSubmissionsByStatus s w = (Normal byStatus, w) ∧
    all ≡ₚ file w ∧
    StronglySorted newest_first all ∧
    byStatus ≡ₚ filter (λ r, status r = s) (file w) ∧
    StronglySorted newest_first byStatus ∧
    byStatus = filter (λ r, status r = s) all.
Proof.
  eexists _, _. split; [reflexivity|]. split; [reflexivity|].
  pose proof byCreatedAtDesc_key as Hk.
  split_and!.
  - by eapply Array_sort_perm.
  - by eapply Array_sort_sorted.
  - by eapply Array_sort_perm.
  - by eapply Array_sort_sorted.
  - symmetry. by eapply filter_Array_sort.
Qed.

(** ** The record store *)

Lemma SubmissionStatus_value_eq (s t : SubmissionStatus) :
  SubmissionStatus_value s = SubmissionStatus_value t ↔ s = t.
Proof. split; [|by intros ->]. by destruct s, t. Qed.

Lemma length_filter_by_status (l : list Submission) :
  (length (filter (λ r, status r = Pending) l)
   + length (filter (λ r, status r = Approved) l)
   + length (filter (λ r, status r = Rejected) l) = length l)%nat.
Proof.
  induction l as [|r l IH]; [done|].
  rewrite !filter_cons. destruct (status r); simpl; lia.
Qed.

Lemma length_filter_value (t : SubmissionStatus) (l k : list Submission) :
  l ≡ₚ k →
  length (filter (λ r, SubmissionStatus_value (status r)
                       = SubmissionStatus_value t) l)
  = length (filter (λ r, status r = t) k).
Proof.
  intros ->. f_equal. apply list_filter_iff.
  intros r. apply SubmissionStatus_value_eq.
Qed.

(** C8. The counts of [getSubmissionCounts] are the numbers of pending,
    approved and rejected records in the list [getAllSubmissions]
    returns on the same store, [total] is the length of that list, and
    the three counts add up to [total]. *)
Theorem getSubmissionCounts_agree_with_getAll (w : World) :
  ∃ c all,
    Storage.getSubmissionCounts w = (Normal c, w) ∧
    Storage.getAllSubmissions w = (Normal all, w) ∧
    Storage.pending c = length (filter (λ r, status r = Pending) all) ∧
    Storage.approved c = length (filter (λ r, status r = Approved) all) ∧
    Storage.rejected c = length (filter (λ r, status r = Rejected) all) ∧
    Storage.total c = length all ∧
    (Storage.pending c + Storage.approved c + Storage.rejected c
     = Storage.total c)%nat.
Proof.
  eexists _, _. split; [reflexivity|]. split; [reflexivity|].
  assert (Hp : file w ≡ₚ Array_sort Storage.byCreatedAtDesc (file w))
    by (symmetry; apply Array_sort_perm).
  simpl. split_and!.
  - apply (length_filter_value Pending), Hp.
  - apply (length_filter_value Approved), Hp.
  - apply (length_filter_value Rejected), Hp.
  - by rewrite <- Hp.
  - rewrite (length_filter_value Pending _ _ (reflexivity _)).
    rewrite (length_filter_value Approved _ _ (reflexivity _)).
    rewrite (length_filter_value Rejected _ _ (reflexivity _)).
    apply length_filter_by_status.
Qed.

Lemma getSubmission_eq id0 w :
  Storage.getSubmission id0 w = (Normal (snd <$> first_with_id id0 (file w)), w).
Proof. reflexivity. Qed.

Lemma first_with_id_absent id0 l :
  (∀ s, s ∈ l → id s ≠ id0) → first_with_id id0 l = None.
Proof.
  intros H. apply list_find_None, Forall_forall. exact H.
Qed.

Lemma first_with_id_present id0 l s :
  s ∈ l → id s = id0 → ∃ i old, first_with_id id0 l = Some (i, old).
Proof.
  intros Hs Hid.
  destruct (list_find_elem_of (λ s, id s = id0) l s Hs Hid) as [[i old] H].
  by exists i, old.
Qed.

(** C10. Saving a record whose id is already in the store appends it:
    the call completes normally, every earlier record stays in place,
    [total] grows by one, and [getSubmission] still returns the record
    it returned before, the first one with that id in insertion order. *)
Theorem saveSubmission_duplicate_id_appends (w : World) (r : Submission) :
  (∃ s, s ∈ file w ∧ id s = id r) →
  ∃ w' old i c c',
    Storage.saveSubmission r w = (Normal (), w') ∧
    file w' = file w ++ [r] ∧
    Storage.getSubmissionCounts w = (Normal c, w) ∧
    Storage.getSubmissionCounts w' = (Normal c', w') ∧
    Storage.total c' = S (Storage.total c) ∧
    Storage.getSubmission (id r) w = (Normal (Some old), w) ∧
    Storage.getSubmission (id r) w' = (Normal (Some old), w') ∧
    file w' !! i = Some old ∧ (i < length (file w))%nat ∧
    (∀ j s, (j < i)%nat → file w' !! j = Some s → id s ≠ id r).
Proof.
  intros (s & Hs & Hid).
  destruct (first_with_id_present (id r) (file w) s Hs Hid) as (i & old & Hf).
  eexists _, old, i, _, _.
  split; [reflexivity|]. split; [reflexivity|].
  split; [reflexivity|]. split; [reflexivity|].
  rewrite !getSubmission_eq. simpl.
  assert (Hf' : first_with_id (id r) (file w ++ [r]) = Some (i, old))
    by (by apply list_find_app_l).
  rewrite Hf, Hf'. simpl.
  apply list_find_Some in Hf' as (Hi & _ & Hmin).
  apply list_find_Some in Hf as (Hi0 & _ & _).
  split_and!; try done.
  - rewrite length_app. simpl. lia.
  - by eapply lookup_lt_Some.
  - intros j s' Hj Hs'. by eapply Hmin.
Qed.

Lemma saveSubmission_duplicate_id_appends_witness :
  ∃ w' old i c c',
    Storage.saveSubmission second_at_t0 w_created = (Normal (), w') ∧
    file w' = file w_created ++ [second_at_t0] ∧
    Storage.getSubmissionCounts w_created = (Normal c, w_created) ∧
    Storage.getSubmissionCounts w' = (Normal c', w') ∧
    Storage.total c' = S (Storage.total c) ∧
    Storage.getSubmission (id second_at_t0) w_created
      = (Normal (Some old), w_created) ∧
    Storage.getSubmission (id second_at_t0) w' = (Normal (Some old), w') ∧
    file w' !! i = Some old ∧ (i < length (file w_created))%nat ∧
    (∀ j s, (j < i)%nat → file w' !! j = Some s → id s ≠ id second_at_t0).
Proof.
  apply (saveSubmission_duplicate_id_appends w_created second_at_t0).
  exists created_at_t0. split; [apply list_elem_of_singleton|]; reflexivity.
Defined.

(** C6. For an id that no stored record carries,
    [updateSubmissionStatus] throws the not-found error and leaves the
    world as it was, and [getSubmission] returns [null] normally. *)
Theorem missing_id_not_found (w : World) (id0 : JsString)
    (newStatus : SubmissionStatus) (elapsed : N) :
  (∀ s, s ∈ file w → id s ≠ id0) →
  WorkflowManager.updateSubmissionStatus elapsed id0 newStatus w
    = (Throw (Error (js "Submission with ID " ++ id0 ++ js " not found")), w) ∧
  WorkflowManager.getSubmission id0 w = (Normal None, w) ∧
  Storage.getSubmission id0 w = (Normal None, w).
Proof.
  intros H. apply first_with_id_absent in H.
  unfold WorkflowManager.getSubmission,
    WorkflowManager.updateSubmissionStatus, bind.
  rewrite getSubmission_eq, H. done.
Qed.

Lemma missing_id_not_found_witness :
  WorkflowManager.updateSubmissionStatus 7 (js "nonexistent") Approved w_created
    = (Throw (Error (js "Submission with ID " ++ js "nonexistent"
                     ++ js " not found")), w_created) ∧
  WorkflowManager.getSubmission (js "nonexistent") w_created
    = (Normal None, w_created) ∧
  Storage.getSubmission (js "nonexistent") w_created
    = (Normal None, w_created).
Proof.
  apply (missing_id_not_found w_created (js "nonexistent") Approved 7).
  intros s ->%list_elem_of_singleton. vm_compute. discriminate.
Defined.

(** ** Creation *)

(** The guard [!s || !s.trim()] fires exactly when [s] trims to the
    empty string. *)
Lemma blank_guard (s : JsString) :
  negb (truthy s) || negb (truthy (trim s)) = bool_decide (trim s = []).
Proof.
  destruct s as [|c s]; [done|]. simpl negb. rewrite orb_false_l.
  destruct (trim (c :: s)) eqn:E; by simpl.
Qed.

Lemma createSubmission_blank_title e1 e2 t c img emb we w :
  trim t = [] →
  WorkflowManager.createSubmission e1 e2 t c img emb we w
    = (Throw (Error (js "Title is required and cannot be empty")), w).
Proof.
  intros H. unfold WorkflowManager.createSubmission.
  by rewrite blank_guard, bool_decide_eq_true_2.
Qed.

Lemma createSubmission_blank_content e1 e2 t c img emb we w :
  trim t ≠ [] → trim c = [] →
  WorkflowManager.createSubmission e1 e2 t c img emb we w
    = (Throw (Error (js "Content is required and cannot be empty")), w).
Proof.
  intros Ht Hc. unfold WorkflowManager.createSubmission.
  rewrite !blank_guard.
  by rewrite (bool_decide_eq_false_2 _ Ht), (bool_decide_eq_true_2 _ Hc).
Qed.

Lemma createSubmission_accepts e1 e2 t c img emb we w :
  trim t ≠ [] → trim c ≠ [] →
  let now := clock w + Z.of_N e1 + Z.of_N e2 in
  let r := created (Number_toString (clock w + Z.of_N e1)) (ISO now)
             t c img emb we in
  WorkflowManager.createSubmission e1 e2 t c img emb we w
    = (Normal r, {| file := file w ++ [r]; clock := now |}).
Proof.
  intros Ht Hc. unfold WorkflowManager.createSubmission.
  rewrite !blank_guard.
  by rewrite (bool_decide_eq_false_2 _ Ht), (bool_decide_eq_false_2 _ Hc).
Qed.

(** C4, as the code has it.  A title that trims to the empty string is
    refused with the title error; a content that trims to the empty
    string is refused with the content error once the title has passed
    its own check, which comes first.  In both cases the world, and so
    the store, is left as it was. *)
Theorem createSubmission_refuses_blank e1 e2 t c img emb we w :
  (trim t = [] →
   WorkflowManager.createSubmission e1 e2 t c img emb we w
     = (Throw (Error (js "Title is required and cannot be empty")), w)) ∧
  (trim t ≠ [] → trim c = [] →
   WorkflowManager.createSubmission e1 e2 t c img emb we w
     = (Throw (Error (js "Content is required and cannot be empty")), w)).
Proof.
  split.
  - apply createSubmission_blank_title.
  - apply createSubmission_blank_content.
Qed.

Lemma createSubmission_refuses_blank_witness :
  WorkflowManager.createSubmission 0 0 (js "   ") (js "x") None None None w0
    = (Throw (Error (js "Title is required and cannot be empty")), w0) ∧
  WorkflowManager.createSubmission 0 0 (js "t") (js "   ") None None None w0
    = (Throw (Error (js "Content is required and cannot be empty")), w0).
Proof.
  split.
  - apply (createSubmission_refuses_blank 0 0 (js "   ") (js "x")).
    reflexivity.
  - apply (createSubmission_refuses_blank 0 0 (js "t") (js "   ")).
    + vm_compute. discriminate.
    + reflexivity.
Defined.

(** C4 as stated fails when title and content are both blank: the
    content is blank, yet the error is the title one. *)
Lemma blank_content_with_blank_title_gets_title_error :
  trim (js "   ") = [] ∧
  thrown (WorkflowManager.createSubmission 0 0 (js "") (js "   ")
            None None None w0)
    = Some (Error (js "Title is required and cannot be empty")) ∧
  thrown (WorkflowManager.createSubmission 0 0 (js "") (js "   ")
            None None None w0)
    ≠ Some (Error (js "Content is required and cannot be empty")).
Proof. split; [reflexivity|]. split; [reflexivity|]. vm_compute. discriminate. Qed.

(** C5. When title and content do not trim to the empty string,
    [createSubmission] returns a record holding the trimmed title and
    content and the optional fields as given, pending, with [createdAt]
    equal to [updatedAt], and that record is appended to the store. *)
Theorem createSubmission_stores_trimmed_pending e1 e2 t c img emb we w :
  trim t ≠ [] → trim c ≠ [] →
  ∃ r w',
    WorkflowManager.createSubmission e1 e2 t c img emb we w = (Normal r, w') ∧
    title r = trim t ∧ content r = trim c ∧
    imageReference r = img ∧ embeddedImages r = emb ∧ writerEmail r = we ∧
    status r = Pending ∧
    createdAt r = updatedAt r ∧
    file w' = file w ++ [r].
Proof.
  intros Ht Hc. eexists _, _.
  split; [by apply createSubmission_accepts|]. done.
Qed.

Lemma createSubmission_stores_trimmed_pending_witness :
  ∃ r w',
    WorkflowManager.createSubmission 0 0 (js "  Title  ") (js "  Body  ")
      None None None w0 = (Normal r, w') ∧
    title r = js "Title" ∧ content r = js "Body" ∧
    imageReference r = None ∧ embeddedImages r = None ∧ writerEmail r = None ∧
    status r = Pending ∧
    createdAt r = updatedAt r ∧
    file w' = file w0 ++ [r].
Proof.
  apply (createSubmission_stores_trimmed_pending 0 0
           (js "  Title  ") (js "  Body  ") None None None w0);
    vm_compute; discriminate.
Defined.

(** ** Transitions *)

Lemma first_with_id_insert id0 l i s r :
  first_with_id id0 l = Some (i, s) → id r = id0 →
  first_with_id id0 (<[i := r]> l) = Some (i, r).
Proof.
  intros (Hi & _ & Hmin)%list_find_Some Hr. apply list_find_Some.
  split_and!; [|done|].
  - apply list_lookup_insert_eq. by eapply lookup_lt_Some.
  - intros j y Hj Hlt. rewrite list_lookup_insert_ne in Hj by lia.
    by eapply Hmin.
Qed.

(** What [updateSubmissionStatus] does once the id is found: whatever
    the old and the new status are, it stamps the record with the
    current time and writes it where the old one was. *)
Lemma updateSubmissionStatus_found elapsed id0 newStatus w i s :
  first_with_id id0 (file w) = Some (i, s) →
  let now := clock w + Z.of_N elapsed in
  let r := transitioned s newStatus (ISO now) in
  WorkflowManager.updateSubmissionStatus elapsed id0 newStatus w
    = (Normal r, {| file := <[i := r]> (file w); clock := now |}).
Proof.
  intros Hf. simpl.
  assert (Hid : id s = id0) by (by apply list_find_Some in Hf as (_ & ? & _)).
  subst id0.
  unfold WorkflowManager.updateSubmissionStatus, bind.
  rewrite getSubmission_eq, Hf. simpl.
  unfold WorkflowManager.validateStatusTransition.
  destruct (decide (status s = newStatus)); simpl;
    unfold Storage.updateSubmission, bind; simpl;
    change (list_find _ (file w)) with (first_with_id (id s) (file w));
    by rewrite Hf.
Qed.

Lemma getSubmission_found id0 w s :
  Storage.getSubmission id0 w = (Normal (Some s), w) →
  ∃ i, first_with_id id0 (file w) = Some (i, s).
Proof.
  rewrite getSubmission_eq. intros [= H].
  destruct (first_with_id id0 (file w)) as [[i s']|]; [|done].
  exists i. simpl in H. by simplify_eq.
Qed.

(** C1, as the code has it.  Re-applying the status a stored submission
    already has succeeds and changes neither the status nor any field
    set at creation, but [updatedAt] is stamped with the time of the
    call, as for any other transition; the returned record is the one
    then stored under the id. *)
Theorem updateSubmissionStatus_same_status_restamps
    (w : World) (id0 : JsString) (s : Submission) (elapsed : N) :
  Storage.getSubmission id0 w = (Normal (Some s), w) →
  ∃ r w',
    WorkflowManager.updateSubmissionStatus elapsed id0 (status s) w
      = (Normal r, w') ∧
    r = transitioned s (status s) (ISO (clock w + Z.of_N elapsed)) ∧
    status r = status s ∧
    updatedAt r = ISO (clock w + Z.of_N elapsed) ∧
    Storage.getSubmission id0 w' = (Normal (Some r), w') ∧
    length (file w') = length (file w).
Proof.
  intros [i Hf]%getSubmission_found. eexists _, _.
  split; [by apply updateSubmissionStatus_found|].
  split_and!; try done.
  - rewrite getSubmission_eq. simpl.
    erewrite first_with_id_insert; [done|exact Hf|].
    simpl. by apply list_find_Some in Hf as (_ & ? & _).
  - simpl. apply length_insert.
Qed.

Lemma updateSubmissionStatus_same_status_restamps_witness :
  ∃ r w',
    WorkflowManager.updateSubmissionStatus 40 id_t0 Approved w_approved
      = (Normal r, w') ∧
    r = transitioned approved_at_25 Approved (ISO (t0 + 65)) ∧
    status r = Approved ∧
    updatedAt r = ISO (t0 + 65) ∧
    Storage.getSubmission id_t0 w' = (Normal (Some r), w') ∧
    length (file w') = length (file w_approved).
Proof.
  apply (updateSubmissionStatus_same_status_restamps
           w_approved id_t0 approved_at_25 40).
  reflexivity.
Defined.

(** C1 as stated fails: a pending submission is approved 25 ms after
    its creation and approved again 40 ms later; the second call
    succeeds with the status unchanged, and the [updatedAt] it returns
    and stores differs from the one before the call. *)
Lemma second_approval_changes_updatedAt :
  Storage.getSubmission id_t0 w_approved
    = (Normal (Some approved_at_25), w_approved) ∧
  status approved_at_25 = Approved ∧
  WorkflowManager.updateSubmissionStatus 40 id_t0 Approved w_approved
    = (Normal approved_at_65, w_reapproved) ∧
  Storage.getSubmission id_t0 w_reapproved
    = (Normal (Some approved_at_65), w_reapproved) ∧
  status approved_at_65 = Approved ∧
  updatedAt approved_at_65 ≠ updatedAt approved_at_25.
Proof. vm_compute. repeat split; discriminate. Qed.

(** What the code does give for a transition (the part of C2 that
    holds).  From any status to any other one,
    [updateSubmissionStatus] succeeds on a stored submission; the
    returned record has the new status, is the one then stored under
    the id, and carries as [updatedAt] the time of the call, which is
    later than the previous [updatedAt] by the time by which the clock
    has passed it: never earlier when no stored stamp is ahead of the
    clock, and the same when the call falls in the same millisecond. *)
Theorem updateSubmissionStatus_any_transition
    (w : World) (id0 : JsString) (s : Submission)
    (to : SubmissionStatus) (elapsed : N) :
  Storage.getSubmission id0 w = (Normal (Some s), w) →
  status s ≠ to →
  ∃ r w',
    WorkflowManager.updateSubmissionStatus elapsed id0 to w = (Normal r, w') ∧
    status r = to ∧
    Storage.getSubmission id0 w' = (Normal (Some r), w') ∧
    getTime (updatedAt r) = clock w + Z.of_N elapsed ∧
    (getTime (updatedAt s) ≤ clock w →
     getTime (updatedAt s) ≤ getTime (updatedAt r)) ∧
    (getTime (updatedAt s) < clock w + Z.of_N elapsed ↔
     getTime (updatedAt s) < getTime (updatedAt r)).
Proof.
  intros [i Hf]%getSubmission_found _. eexists _, _.
  split; [by apply updateSubmissionStatus_found|].
  split_and!; try done.
  - rewrite getSubmission_eq. simpl.
    erewrite first_with_id_insert; [done|exact Hf|].
    simpl. by apply list_find_Some in Hf as (_ & ? & _).
  - simpl. lia.
Qed.

Lemma updateSubmissionStatus_any_transition_witness :
  ∃ r w',
    WorkflowManager.updateSubmissionStatus 40 id_t0 Rejected w_approved
      = (Normal r, w') ∧
    status r = Rejected ∧
    Storage.getSubmission id_t0 w' = (Normal (Some r), w') ∧
    getTime (updatedAt r) = clock w_approved + Z.of_N 40 ∧
    (getTime (updatedAt approved_at_25) ≤ clock w_approved →
     getTime (updatedAt approved_at_25) ≤ getTime (updatedAt r)) ∧
    (getTime (updatedAt approved_at_25) < clock w_approved + Z.of_N 40 ↔
     getTime (updatedAt approved_at_25) < getTime (updatedAt r)).
Proof.
  apply (updateSubmissionStatus_any_transition
           w_approved id_t0 approved_at_25 Rejected 40).
  - reflexivity.
  - discriminate.
Defined.

(** C2 fails on the code.  The scenario is the one of the suite's
    "should transition from pending to approved":
    [createSubmission("Test", "Content")], then at once
    [updateSubmissionStatus(submission.id, Approved)].  When both calls
    fall in one millisecond the transition succeeds and the record has
    the new status, but the [updatedAt] it returns and stores is the
    very one the creation set: not a later one, as C2 asks, and not a
    different one, as the suite expects. *)
Theorem same_millisecond_transition_keeps_updatedAt :
  WorkflowManager.createSubmission 0 0 (js "Test") (js "Content")
      None None None w0
    = (Normal created_at_t0, w_created) ∧
  Storage.getSubmission (id created_at_t0) w_created
    = (Normal (Some created_at_t0), w_created) ∧
  status created_at_t0 = Pending ∧
  WorkflowManager.updateSubmissionStatus 0 (id created_at_t0) Approved
      w_created
    = (Normal approved_at_0, {| file := [approved_at_0]; clock := t0 |}) ∧
  status approved_at_0 = Approved ∧
  updatedAt approved_at_0 = updatedAt created_at_t0 ∧
  ¬ (getTime (updatedAt created_at_t0) < getTime (updatedAt approved_at_0)).
Proof. vm_compute. repeat split; discriminate. Qed.

(** ** Ids *)

Lemma js_inj (s1 s2 : string) : js s1 = js s2 → s1 = s2.
Proof.
  unfold js. intros H.
  assert (Inj (=) (=) Ascii.N_of_ascii) as Hinj.
  { intros a b Hab.
    by rewrite <- (Ascii.ascii_N_embedding a), Hab, Ascii.ascii_N_embedding. }
  apply (inj (fmap Ascii.N_of_ascii)) in H.
  by rewrite <- (String.string_of_list_ascii_of_string s1), H,
    String.string_of_list_ascii_of_string.
Qed.

Lemma Number_toString_inj (m n : Z) :
  Number_toString m = Number_toString n → m = n.
Proof. intros H%js_inj. by apply (inj pretty) in H. Qed.

(** Two creations in a row get the same id exactly when no millisecond
    passes between the clock reading that stamps the first record and
    the one that names the second. *)
Lemma createSubmission_twice_ids e1 e2 t c img emb we e1' e2' t' c' img' emb' we' w :
  trim t ≠ [] → trim c ≠ [] → trim t' ≠ [] → trim c' ≠ [] →
  ∃ r1 w1 r2 w2,
    WorkflowManager.createSubmission e1 e2 t c img emb we w = (Normal r1, w1) ∧
    WorkflowManager.createSubmission e1' e2' t' c' img' emb' we' w1
      = (Normal r2, w2) ∧
    (id r1 = id r2 ↔ (e2 + e1')%N = 0%N).
Proof.
  intros Ht Hc Ht' Hc'. eexists _, _, _, _.
  split; [by apply createSubmission_accepts|].
  split; [by apply createSubmission_accepts|].
  simpl. split.
  - intros H%Number_toString_inj. lia.
  - intros H. f_equal. lia.
Qed.

(** C9 fails on the code: two submissions created within one
    millisecond are both accepted and stored, under the same id. *)
Theorem two_creations_in_one_millisecond_share_id :
  WorkflowManager.createSubmission 0 0 (js "Title 1") (js "Content 1")
      None None None w0
    = (Normal first_at_t0, {| file := [first_at_t0]; clock := t0 |}) ∧
  WorkflowManager.createSubmission 0 0 (js "Title 2") (js "Content 2")
      None None None {| file := [first_at_t0]; clock := t0 |}
    = (Normal second_at_t0,
       {| file := [first_at_t0; second_at_t0]; clock := t0 |}) ∧
  id first_at_t0 = id second_at_t0.
Proof. vm_compute. repeat split. Qed.

(** ** The invariant *)

Lemma stamped_in_past_later w (t : Z) l :
  clock w ≤ t →
  Forall (λ s, well_formed s ∧ getTime (createdAt s) ≤ clock w) l →
  Forall (λ s, well_formed s ∧ getTime (createdAt s) ≤ t) l.
Proof.
  intros Ht H. eapply Forall_impl; [exact H|].
  intros s [??]. split; [done|lia].
Qed.

Lemma createSubmission_keeps e1 e2 t c img emb we w :
  stamped_in_past w →
  stamped_in_past (WorkflowManager.createSubmission e1 e2 t c img emb we w).2.
Proof.
  intros Hw.
  destruct (decide (trim t = [])) as [Ht|Ht];
    [by rewrite createSubmission_blank_title|].
  destruct (decide (trim c = [])) as [Hc|Hc];
    [by rewrite createSubmission_blank_content|].
  rewrite createSubmission_accepts by done.
  unfold stamped_in_past. simpl. apply Forall_app. split.
  - eapply stamped_in_past_later; [|exact Hw]. lia.
  - repeat constructor; simpl; lia.
Qed.

Lemma updateSubmissionStatus_keeps elapsed id0 newStatus w :
  stamped_in_past w →
  stamped_in_past
    (WorkflowManager.updateSubmissionStatus elapsed id0 newStatus w).2.
Proof.
  intros Hw.
  destruct (first_with_id id0 (file w)) as [[i s]|] eqn:Hf.
  - rewrite (updateSubmissionStatus_found _ _ _ _ _ _ Hf).
    unfold stamped_in_past. simpl.
    apply list_find_Some in Hf as (Hi & _ & _).
    destruct (Forall_lookup_1 _ _ _ _ Hw Hi) as [[_ Hs] Hc].
    apply Forall_insert.
    + eapply stamped_in_past_later; [|exact Hw]. lia.
    + split; [split|]; simpl; [by destruct newStatus; auto|lia..].
  - unfold WorkflowManager.updateSubmissionStatus, bind.
    by rewrite getSubmission_eq, Hf.
Qed.

Lemma deleteSubmission_keeps id0 w :
  stamped_in_past w →
  stamped_in_past (WorkflowManager.deleteSubmission id0 w).2.
Proof.
  intros Hw.
  unfold WorkflowManager.deleteSubmission, Storage.deleteSubmission, bind.
  simpl. destruct (_ <? _)%nat; [|done].
  unfold stamped_in_past in *. simpl. rewrite Forall_forall in *.
  intros s [_ Hs]%list_elem_of_filter. by apply Hw.
Qed.

Lemma perform_keeps op w : stamped_in_past w → stamped_in_past (perform op w).
Proof.
  destruct op; simpl.
  - apply createSubmission_keeps.
  - apply updateSubmissionStatus_keeps.
  - apply updateSubmissionStatus_keeps.
  - apply updateSubmissionStatus_keeps.
  - apply deleteSubmission_keeps.
Qed.

(** C3. Starting from a store whose records are well formed (one of
    the three statuses, [createdAt] not after [updatedAt]) and none
    created ahead of the clock, as the empty store is, every sequence of
    [createSubmission], [updateSubmissionStatus], [approveSubmission],
    [rejectSubmission] and [deleteSubmission] leads to such a store
    again: every record in it is well formed. *)
Theorem core_operations_keep_records_well_formed
    (w : World) (ops : list Operation) :
  stamped_in_past w →
  stamped_in_past (perform_all ops w) ∧
  ∀ s, s ∈ file (perform_all ops w) →
    (status s = Pending ∨ status s = Approved ∨ status s = Rejected) ∧
    getTime (createdAt s) ≤ getTime (updatedAt s).
Proof.
  intros Hw.
  assert (H : stamped_in_past (perform_all ops w)).
  { revert w Hw. induction ops as [|op ops IH]; intros w Hw; [done|].
    simpl. apply IH. by apply perform_keeps. }
  split; [done|]. intros s Hs.
  unfold stamped_in_past in H. rewrite Forall_forall in H.
  by destruct (H s Hs) as [? _].
Qed.

Lemma core_operations_keep_records_well_formed_witness :
  stamped_in_past (perform_all session w0) ∧
  ∀ s, s ∈ file (perform_all session w0) →
    (status s = Pending ∨ status s = Approved ∨ status s = Rejected) ∧
    getTime (createdAt s) ≤ getTime (updatedAt s).
Proof.
  apply (core_operations_keep_records_well_formed w0 session).
  unfold stamped_in_past. simpl. constructor.
Defined.

(** ** The scenarios of the test suite *)

(** Four submissions a millisecond apart, the first approved and the
    second rejected. *)
Example counts_after_approve_and_reject :
  (Storage.getSubmissionCounts
     (perform_all
        [ CreateSubmission 1 0 (js "A") (js "a") None None None;
          CreateSubmission 1 0 (js "B") (js "b") None None None;
          CreateSubmission 1 0 (js "C") (js "c") None None None;
          CreateSubmission 1 0 (js "D") (js "d") None None None;
          ApproveSubmission 1 (js "1768730400001");
          RejectSubmission 1 (js "1768730400002") ] w0)).1
  = Normal {| Storage.pending := 2; Storage.approved := 1;
              Storage.rejected := 1; Storage.total := 4 |}.
Proof. reflexivity. Qed.

(** Submissions created at T1 < T2 < T3 are listed T3, T2, T1. *)
Example getAllSubmissions_three :
  (Storage.getAllSubmissions
     (perform_all
        [ CreateSubmission 1 0 (js "T1") (js "a") None None None;
          CreateSubmission 1 0 (js "T2") (js "b") None None None;
          CreateSubmission 1 0 (js "T3") (js "c") None None None ] w0)).1
  = Normal
      [ created (js "1768730400003") (ISO (t0 + 3)) (js "T3") (js "c")
          None None None;
        created (js "1768730400002") (ISO (t0 + 2)) (js "T2") (js "b")
          None None None;
        created (js "1768730400001") (ISO (t0 + 1)) (js "T1") (js "a")
          None None None ].
Proof. reflexivity. Qed.

(** Deleting a stored id returns [true] and the id is gone; deleting an
    unknown id returns [false]. *)
Example deleteSubmission_then_absent :
  WorkflowManager.deleteSubmission id_t0 w_created
    = (Normal true, {| file := []; clock := t0 |}) ∧
  WorkflowManager.getSubmission id_t0 {| file := []; clock := t0 |}
    = (Normal None, {| file := []; clock := t0 |}) ∧
  WorkflowManager.deleteSubmission (js "invalid-id") w_created
    = (Normal false, w_created).
Proof. vm_compute. repeat split. Qed.

(** * Further properties of the record store *)

(** Lookups under another id do not see a record replaced in place. *)
Lemma first_with_id_insert_other id' l i old r :
  l !! i = Some old → id old ≠ id' → id r ≠ id' →
  first_with_id id' (<[i := r]> l) = first_with_id id' l.
Proof.
  intros Hi Hold Hr. unfold first_with_id.
  destruct (list_find (λ s, id s = id') l) as [[j x]|] eqn:Hf.
  - apply list_find_Some in Hf as (Hj & Hx & Hmin).
    assert (i ≠ j) by (intros ->; congruence).
    apply list_find_Some. split_and!; [|done|].
    + by rewrite list_lookup_insert_ne.
    + intros k y Hk Hlt. destruct (decide (i = k)) as [->|Hne].
      * rewrite list_lookup_insert_eq in Hk by (by eapply lookup_lt_Some).
        by simplify_eq.
      * rewrite list_lookup_insert_ne in Hk by done. by eapply Hmin.
  - apply list_find_None. apply list_find_None in Hf.
    by apply Forall_insert.
Qed.

(** Removing the records of one id leaves the lookups of the others. *)
Lemma first_with_id_filter_other id0 id' (l : list Submission) :
  id' ≠ id0 →
  snd <$> first_with_id id' (filter (λ s, id s ≠ id0) l)
  = snd <$> first_with_id id' l.
Proof.
  intros Hne. unfold first_with_id.
  induction l as [|x l IH]; [done|].
  rewrite filter_cons. destruct (decide (id x ≠ id0)) as [Hx|Hx].
  - simpl. destruct (decide (id x = id')); [done|].
    destruct (list_find _ (filter _ l)) as [[??]|],
      (list_find _ l) as [[??]|]; simpl in *; congruence.
  - apply dec_stable in Hx. simpl.
    rewrite decide_False by congruence.
    rewrite IH. by destruct (list_find _ l) as [[??]|].
Qed.

Lemma first_with_id_snoc_other id' l r :
  id r ≠ id' →
  first_with_id id' (l ++ [r]) = first_with_id id' l.
Proof.
  intros Hr. unfold first_with_id.
  destruct (list_find (λ s, id s = id') l) as [[j x]|] eqn:Hf.
  - by apply list_find_app_l.
  - apply list_find_None in Hf.
    apply list_find_None, Forall_app. split; [done|].
    by repeat constructor.
Qed.

Lemma first_with_id_snoc_fresh l r :
  (∀ s, s ∈ l → id s ≠ id r) →
  first_with_id (id r) (l ++ [r]) = Some (length l, r).
Proof.
  intros Hl. apply list_find_Some. split_and!; [|done|].
  - by rewrite lookup_app_r, Nat.sub_diag.
  - intros j y Hj Hlt. rewrite lookup_app_l in Hj by done.
    apply Hl. by eapply list_elem_of_lookup_2.
Qed.

(** X1. Saving under an id the store does not hold yet makes the record the
    one [getSubmission] returns for that id, and changes the answer for
    no other id. *)
Theorem saveSubmission_then_getSubmission (w : World) (r : Submission) :
  (∀ s, s ∈ file w → id s ≠ id r) →
  ∃ w',
    Storage.saveSubmission r w = (Normal (), w') ∧
    Storage.getSubmission (id r) w' = (Normal (Some r), w') ∧
    ∀ id', id' ≠ id r →
      (Storage.getSubmission id' w').1 = (Storage.getSubmission id' w).1.
Proof.
  intros Hfresh. eexists. split; [reflexivity|]. split.
  - rewrite getSubmission_eq. simpl.
    by rewrite first_with_id_snoc_fresh.
  - intros id' Hne. rewrite !getSubmission_eq. simpl.
    by rewrite first_with_id_snoc_other.
Qed.

Lemma saveSubmission_then_getSubmission_witness :
  ∃ w',
    Storage.saveSubmission approved_at_65 w0 = (Normal (), w') ∧
    Storage.getSubmission (id approved_at_65) w'
      = (Normal (Some approved_at_65), w') ∧
    ∀ id', id' ≠ id approved_at_65 →
      (Storage.getSubmission id' w').1 = (Storage.getSubmission id' w0).1.
Proof.
  apply (saveSubmission_then_getSubmission w0 approved_at_65).
  intros s Hs. by apply elem_of_nil in Hs.
Defined.

(** X2. [updateSubmission] on an id the store holds replaces the first
    record with that id and nothing else: the store keeps its length,
    the new record is the one returned for the id, and the answer for
    every other id is as before. *)
Theorem updateSubmission_replaces_first (w : World) (r : Submission) :
  (∃ s, s ∈ file w ∧ id s = id r) →
  ∃ i old w',
    first_with_id (id r) (file w) = Some (i, old) ∧
    Storage.updateSubmission r w = (Normal (), w') ∧
    file w' = <[i := r]> (file w) ∧
    clock w' = clock w ∧
    length (file w') = length (file w) ∧
    Storage.getSubmission (id r) w' = (Normal (Some r), w') ∧
    ∀ id', id' ≠ id r →
      (Storage.getSubmission id' w').1 = (Storage.getSubmission id' w).1.
Proof.
  intros (s & Hs & Hid).
  destruct (first_with_id_present (id r) (file w) s Hs Hid) as (i & old & Hf).
  exists i, old. eexists. split; [done|].
  split.
  { unfold Storage.updateSubmission, bind. simpl.
    change (list_find _ (file w)) with (first_with_id (id r) (file w)).
    by rewrite Hf. }
  split_and!; try done.
  - apply length_insert.
  - rewrite getSubmission_eq. simpl.
    by erewrite first_with_id_insert.
  - intros id' Hne. rewrite !getSubmission_eq. simpl.
    apply list_find_Some in Hf as (Hi & Ho & _).
    erewrite first_with_id_insert_other; [done|exact Hi|congruence|congruence].
Qed.

Lemma updateSubmission_replaces_first_witness :
  ∃ i old w',
    first_with_id (id approved_at_65) (file w_created) = Some (i, old) ∧
    Storage.updateSubmission approved_at_65 w_created = (Normal (), w') ∧
    file w' = <[i := approved_at_65]> (file w_created) ∧
    clock w' = clock w_created ∧
    length (file w') = length (file w_created) ∧
    Storage.getSubmission (id approved_at_65) w'
      = (Normal (Some approved_at_65), w') ∧
    ∀ id', id' ≠ id approved_at_65 →
      (Storage.getSubmission id' w').1
      = (Storage.getSubmission id' w_created).1.
Proof.
  apply (updateSubmission_replaces_first w_created approved_at_65).
  exists created_at_t0. split; [apply list_elem_of_singleton|]; reflexivity.
Defined.

(** [updateSubmission] is never an upsert: for an id the store does not
    hold it throws the not-found error and writes nothing. *)
Theorem updateSubmission_absent_throws (w : World) (r : Submission) :
  (∀ s, s ∈ file w → id s ≠ id r) →
  Storage.updateSubmission r w
    = (Throw (Error (js "Submission with ID " ++ id r ++ js " not found")), w).
Proof.
  intros H%first_with_id_absent.
  unfold Storage.updateSubmission, bind. simpl.
  change (list_find _ (file w)) with (first_with_id (id r) (file w)).
  by rewrite H.
Qed.

Lemma updateSubmission_absent_throws_witness :
  Storage.updateSubmission approved_at_65 w0
    = (Throw (Error (js "Submission with ID " ++ id approved_at_65
                     ++ js " not found")), w0).
Proof.
  apply (updateSubmission_absent_throws w0 approved_at_65).
  intros s Hs. by apply elem_of_nil in Hs.
Defined.

(** X3. Deleting an id the store holds returns [true] and removes every
    record with that id, duplicates included: afterwards none is left,
    [getSubmission] returns [null] for it, and the answer for every
    other id is as before. *)
Theorem deleteSubmission_removes_every_match (w : World) (id0 : JsString) :
  (∃ s, s ∈ file w ∧ id s = id0) →
  ∃ w',
    Storage.deleteSubmission id0 w = (Normal true, w') ∧
    file w' = filter (λ s, id s ≠ id0) (file w) ∧
    clock w' = clock w ∧
    (∀ s, s ∈ file w' → id s ≠ id0) ∧
    (∀ s, s ∈ file w → id s ≠ id0 → s ∈ file w') ∧
    Storage.getSubmission id0 w' = (Normal None, w') ∧
    ∀ id', id' ≠ id0 →
      (Storage.getSubmission id' w').1 = (Storage.getSubmission id' w).1.
Proof.
  intros (s & Hs & Hid). eexists. split.
  { unfold Storage.deleteSubmission, bind. simpl.
    assert (length (filter (λ s, id s ≠ id0) (file w)) < length (file w))%nat
      as Hlt by (eapply length_filter_lt; [exact Hs|]; by intros []).
    apply Nat.ltb_lt in Hlt. by rewrite Hlt. }
  split_and!; try done.
  - by intros s' [? _]%list_elem_of_filter.
  - intros s' ? ?. by apply list_elem_of_filter.
  - rewrite getSubmission_eq. simpl. rewrite first_with_id_absent; [done|].
    by intros s' [? _]%list_elem_of_filter.
  - intros id' Hne. rewrite !getSubmission_eq. simpl.
    by rewrite first_with_id_filter_other.
Qed.

Lemma deleteSubmission_removes_every_match_witness :
  ∃ w',
    Storage.deleteSubmission id_t0 w_created = (Normal true, w') ∧
    file w' = filter (λ s, id s ≠ id_t0) (file w_created) ∧
    clock w' = clock w_created ∧
    (∀ s, s ∈ file w' → id s ≠ id_t0) ∧
    (∀ s, s ∈ file w_created → id s ≠ id_t0 → s ∈ file w') ∧
    Storage.getSubmission id_t0 w' = (Normal None, w') ∧
    ∀ id', id' ≠ id_t0 →
      (Storage.getSubmission id' w').1
      = (Storage.getSubmission id' w_created).1.
Proof.
  apply (deleteSubmission_removes_every_match w_created id_t0).
  exists created_at_t0. split; [apply list_elem_of_singleton|]; reflexivity.
Defined.

(** Deleting an id the store does not hold returns [false] and writes
    nothing. *)
Theorem deleteSubmission_absent_returns_false (w : World) (id0 : JsString) :
  (∀ s, s ∈ file w → id s ≠ id0) →
  Storage.deleteSubmission id0 w = (Normal false, w).
Proof.
  intros H. unfold Storage.deleteSubmission, bind. simpl.
  assert (filter (λ s, id s ≠ id0) (file w) = file w) as ->.
  { induction (file w) as [|x l IH]; [done|].
    rewrite filter_cons_True by (apply H; left).
    f_equal. apply IH. intros s Hs. apply H. by right. }
  by rewrite Nat.ltb_irrefl.
Qed.

Lemma deleteSubmission_absent_returns_false_witness :
  Storage.deleteSubmission (js "invalid-id") w_created
    = (Normal false, w_created).
Proof.
  apply (deleteSubmission_absent_returns_false w_created (js "invalid-id")).
  intros s ->%list_elem_of_singleton. vm_compute. discriminate.
Defined.

(** * Further properties of the workflow *)

Lemma stored_ids_insert (l : list Submission) i old r :
  l !! i = Some old → id r = id old →
  fmap (M := list) id (<[i := r]> l) = fmap (M := list) id l.
Proof.
  intros Hi Hr. rewrite list_fmap_insert, Hr.
  apply list_insert_id. by rewrite list_lookup_fmap, Hi.
Qed.

(** X4. A transition rewrites the status and [updatedAt] of the record
    found under the id and nothing else: its id, title, content,
    optional fields and [createdAt] are kept, the store holds the same
    ids in the same order, and the answer of [getSubmission] for every
    other id is as before. *)
Theorem updateSubmissionStatus_touches_only_its_record
    (w : World) (id0 : JsString) (s : Submission)
    (newStatus : SubmissionStatus) (elapsed : N) :
  Storage.getSubmission id0 w = (Normal (Some s), w) →
  ∃ r w',
    WorkflowManager.updateSubmissionStatus elapsed id0 newStatus w
      = (Normal r, w') ∧
    id r = id s ∧ title r = title s ∧ content r = content s ∧
    imageReference r = imageReference s ∧
    embeddedImages r = embeddedImages s ∧
    writerEmail r = writerEmail s ∧
    createdAt r = createdAt s ∧
    stored_ids w' = stored_ids w ∧
    ∀ id', id' ≠ id0 →
      (Storage.getSubmission id' w').1 = (Storage.getSubmission id' w).1.
Proof.
  intros [i Hf]%getSubmission_found. eexists _, _.
  split; [by apply updateSubmissionStatus_found|].
  apply list_find_Some in Hf as (Hi & Hid & _).
  split_and!; try done.
  - unfold stored_ids. simpl. by eapply stored_ids_insert.
  - intros id' Hne. rewrite !getSubmission_eq. simpl.
    erewrite first_with_id_insert_other; [done|exact Hi|..]; simpl; congruence.
Qed.

Lemma updateSubmissionStatus_touches_only_its_record_witness :
  ∃ r w',
    WorkflowManager.updateSubmissionStatus 40 id_t0 Rejected w_approved
      = (Normal r, w') ∧
    id r = id approved_at_25 ∧ title r = title approved_at_25 ∧
    content r = content approved_at_25 ∧
    imageReference r = imageReference approved_at_25 ∧
    embeddedImages r = embeddedImages approved_at_25 ∧
    writerEmail r = writerEmail approved_at_25 ∧
    createdAt r = createdAt approved_at_25 ∧
    stored_ids w' = stored_ids w_approved ∧
    ∀ id', id' ≠ id_t0 →
      (Storage.getSubmission id' w').1
      = (Storage.getSubmission id' w_approved).1.
Proof.
  apply (updateSubmissionStatus_touches_only_its_record
           w_approved id_t0 approved_at_25 Rejected 40).
  reflexivity.
Defined.

(** X5. Of two transitions of the same submission the later one decides:
    the second call succeeds whatever the first one set, and the record
    it returns and stores is the original one with the second status,
    stamped with the time of the second call. *)
Theorem later_transition_wins
    (w : World) (id0 : JsString) (s : Submission)
    (st1 st2 : SubmissionStatus) (e1 e2 : N) :
  Storage.getSubmission id0 w = (Normal (Some s), w) →
  ∃ r1 w1 r2 w2,
    WorkflowManager.updateSubmissionStatus e1 id0 st1 w = (Normal r1, w1) ∧
    WorkflowManager.updateSubmissionStatus e2 id0 st2 w1 = (Normal r2, w2) ∧
    r2 = transitioned s st2 (ISO (clock w + Z.of_N e1 + Z.of_N e2)) ∧
    Storage.getSubmission id0 w2 = (Normal (Some r2), w2).
Proof.
  intros [i Hf]%getSubmission_found.
  pose proof Hf as (Hi & Hid & _)%list_find_Some.
  set (r1 := transitioned s st1 (ISO (clock w + Z.of_N e1))).
  assert (Hf1 : first_with_id id0 (<[i := r1]> (file w)) = Some (i, r1))
    by (by eapply first_with_id_insert).
  eexists _, _, _, _.
  split; [by apply updateSubmissionStatus_found|].
  split; [by apply updateSubmissionStatus_found|].
  split; [done|].
  rewrite getSubmission_eq. simpl.
  by erewrite first_with_id_insert.
Qed.

Lemma later_transition_wins_witness :
  ∃ r1 w1 r2 w2,
    WorkflowManager.updateSubmissionStatus 3 id_t0 Rejected w_created
      = (Normal r1, w1) ∧
    WorkflowManager.updateSubmissionStatus 4 id_t0 Approved w1
      = (Normal r2, w2) ∧
    r2 = transitioned created_at_t0 Approved
           (ISO (clock w_created + Z.of_N 3 + Z.of_N 4)) ∧
    Storage.getSubmission id_t0 w2 = (Normal (Some r2), w2).
Proof.
  apply (later_transition_wins w_created id_t0 created_at_t0
           Rejected Approved 3 4).
  reflexivity.
Defined.

(** [approveSubmission] and [rejectSubmission] undo each other: on a
    stored submission, in whatever state, approving then rejecting
    leaves it rejected and rejecting then approving leaves it approved,
    every call succeeding. *)
Theorem approve_and_reject_reverse_each_other
    (w : World) (id0 : JsString) (s : Submission) (e1 e2 : N) :
  Storage.getSubmission id0 w = (Normal (Some s), w) →
  (∃ r1 w1 r2 w2,
     WorkflowManager.approveSubmission e1 id0 w = (Normal r1, w1) ∧
     status r1 = Approved ∧
     WorkflowManager.rejectSubmission e2 id0 w1 = (Normal r2, w2) ∧
     status r2 = Rejected ∧
     Storage.getSubmission id0 w2 = (Normal (Some r2), w2)) ∧
  (∃ r1 w1 r2 w2,
     WorkflowManager.rejectSubmission e1 id0 w = (Normal r1, w1) ∧
     status r1 = Rejected ∧
     WorkflowManager.approveSubmission e2 id0 w1 = (Normal r2, w2) ∧
     status r2 = Approved ∧
     Storage.getSubmission id0 w2 = (Normal (Some r2), w2)).
Proof.
  intros [i Hf]%getSubmission_found.
  pose proof Hf as (Hi & Hid & _)%list_find_Some.
  unfold WorkflowManager.approveSubmission, WorkflowManager.rejectSubmission.
  split.
  - set (r1 := transitioned s Approved (ISO (clock w + Z.of_N e1))).
    assert (Hf1 : first_with_id id0 (<[i := r1]> (file w)) = Some (i, r1))
      by (by eapply first_with_id_insert).
    eexists _, _, _, _.
    split; [by apply updateSubmissionStatus_found|]. split; [done|].
    split; [by apply updateSubmissionStatus_found|]. split; [done|].
    rewrite getSubmission_eq. simpl. by erewrite first_with_id_insert.
  - set (r1 := transitioned s Rejected (ISO (clock w + Z.of_N e1))).
    assert (Hf1 : first_with_id id0 (<[i := r1]> (file w)) = Some (i, r1))
      by (by eapply first_with_id_insert).
    eexists _, _, _, _.
    split; [by apply updateSubmissionStatus_found|]. split; [done|].
    split; [by apply updateSubmissionStatus_found|]. split; [done|].
    rewrite getSubmission_eq. simpl. by erewrite first_with_id_insert.
Qed.

Lemma approve_and_reject_reverse_each_other_witness :
  (∃ r1 w1 r2 w2,
     WorkflowManager.approveSubmission 2 id_t0 w_created = (Normal r1, w1) ∧
     status r1 = Approved ∧
     WorkflowManager.rejectSubmission 5 id_t0 w1 = (Normal r2, w2) ∧
     status r2 = Rejected ∧
     Storage.getSubmission id_t0 w2 = (Normal (Some r2), w2)) ∧
  (∃ r1 w1 r2 w2,
     WorkflowManager.rejectSubmission 2 id_t0 w_created = (Normal r1, w1) ∧
     status r1 = Rejected ∧
     WorkflowManager.approveSubmission 5 id_t0 w1 = (Normal r2, w2) ∧
     status r2 = Approved ∧
     Storage.getSubmission id_t0 w2 = (Normal (Some r2), w2)).
Proof.
  apply (approve_and_reject_reverse_each_other
           w_created id_t0 created_at_t0 2 5).
  reflexivity.
Defined.

Lemma filter_other_ids_snoc (l : list Submission) r :
  (∀ s, s ∈ l → id s ≠ id r) →
  filter (λ s, id s ≠ id r) (l ++ [r]) = l.
Proof.
  intros Hl. rewrite filter_app.
  rewrite filter_cons_False by (by intros []).
  rewrite filter_nil, app_nil_r.
  induction l as [|x l IH]; [done|].
  rewrite filter_cons_True by (apply Hl; left).
  f_equal. apply IH. intros s Hs. apply Hl. by right.
Qed.

(** X6. A submission created under an id the store does not hold yet can be
    fetched by that id, and what is fetched is the record the creation
    returned. *)
Theorem createSubmission_then_getSubmission e1 e2 t c img emb we w :
  trim t ≠ [] → trim c ≠ [] →
  (∀ s, s ∈ file w → id s ≠ Number_toString (clock w + Z.of_N e1)) →
  ∃ r w',
    WorkflowManager.createSubmission e1 e2 t c img emb we w = (Normal r, w') ∧
    id r = Number_toString (clock w + Z.of_N e1) ∧
    WorkflowManager.getSubmission (id r) w' = (Normal (Some r), w').
Proof.
  intros Ht Hc Hfresh. eexists _, _.
  split; [by apply createSubmission_accepts|]. split; [done|].
  unfold WorkflowManager.getSubmission. rewrite getSubmission_eq.
  match goal with
  | |- context [file {| file := file w ++ [?r] |}] =>
      pose proof (first_with_id_snoc_fresh (file w) r Hfresh) as H
  end.
  simpl in *. by rewrite H.
Qed.

Lemma createSubmission_then_getSubmission_witness :
  ∃ r w',
    WorkflowManager.createSubmission 1 0 (js " T ") (js "c") None None None
      w_created = (Normal r, w') ∧
    id r = Number_toString (clock w_created + Z.of_N 1) ∧
    WorkflowManager.getSubmission (id r) w' = (Normal (Some r), w').
Proof.
  apply (createSubmission_then_getSubmission 1 0 (js " T ") (js "c")
           None None None w_created).
  - vm_compute. discriminate.
  - vm_compute. discriminate.
  - intros s ->%list_elem_of_singleton. vm_compute. discriminate.
Defined.

(** X7. Deleting a submission right after creating it under a fresh id
    returns [true] and puts the data file back to what it held before
    the creation. *)
Theorem createSubmission_then_deleteSubmission e1 e2 t c img emb we w :
  trim t ≠ [] → trim c ≠ [] →
  (∀ s, s ∈ file w → id s ≠ Number_toString (clock w + Z.of_N e1)) →
  ∃ r w' w'',
    WorkflowManager.createSubmission e1 e2 t c img emb we w = (Normal r, w') ∧
    WorkflowManager.deleteSubmission (id r) w' = (Normal true, w'') ∧
    file w'' = file w.
Proof.
  intros Ht Hc Hfresh. eexists _, _, _.
  split; [by apply createSubmission_accepts|].
  pose proof (filter_other_ids_snoc (file w)
    (created (Number_toString (clock w + Z.of_N e1))
       (ISO (clock w + Z.of_N e1 + Z.of_N e2)) t c img emb we) Hfresh) as H.
  unfold WorkflowManager.deleteSubmission, Storage.deleteSubmission, bind.
  simpl in *. rewrite H, length_app. simpl.
  assert ((length (file w) <? length (file w) + 1)%nat = true) as ->
    by (apply Nat.ltb_lt; lia).
  done.
Qed.

Lemma createSubmission_then_deleteSubmission_witness :
  ∃ r w' w'',
    WorkflowManager.createSubmission 1 0 (js " T ") (js "c") None None None
      w_created = (Normal r, w') ∧
    WorkflowManager.deleteSubmission (id r) w' = (Normal true, w'') ∧
    file w'' = file w_created.
Proof.
  apply (createSubmission_then_deleteSubmission 1 0 (js " T ") (js "c")
           None None None w_created).
  - vm_compute. discriminate.
  - vm_compute. discriminate.
  - intros s ->%list_elem_of_singleton. vm_compute. discriminate.
Defined.

(** ** The status queries and the counts *)

Lemma filter_by_status_partition (l : list Submission) :
  filter (λ s, status s = Pending) l
  ++ filter (λ s, status s = Approved) l
  ++ filter (λ s, status s = Rejected) l ≡ₚ l.
Proof.
  induction l as [|x l IH]; [done|].
  rewrite !filter_cons. destruct (status x); simpl.
  - by rewrite IH.
  - rewrite <- Permutation_middle. by rewrite IH.
  - rewrite app_assoc, <- Permutation_middle, <- app_assoc. by rewrite IH.
Qed.

(** X8. The pending, approved and rejected lists of the workflow manager
    split the list of all submissions: each holds records of its own
    status only, and together they hold every record of
    [getAllSubmissions] exactly once.  None of the four queries writes. *)
Theorem status_queries_partition (w : World) :
  ∃ p a r all,
    WorkflowManager.getPendingSubmissions w = (Normal p, w) ∧
    WorkflowManager.getApprovedSubmissions w = (Normal a, w) ∧
    WorkflowManager.getRejectedSubmissions w = (Normal r, w) ∧
    WorkflowManager.getAllSubmissions w = (Normal all, w) ∧
    Forall (λ s, status s = Pending) p ∧
    Forall (λ s, status s = Approved) a ∧
    Forall (λ s, status s = Rejected) r ∧
    p ++ a ++ r ≡ₚ all.
Proof.
  eexists _, _, _, _.
  split; [reflexivity|]. split; [reflexivity|].
  split; [reflexivity|]. split; [reflexivity|].
  pose proof byCreatedAtDesc_key as Hk.
  assert (∀ st, Forall (λ s, status s = st)
            (Array_sort Storage.byCreatedAtDesc
               (filter (λ s, status s = st) (file w)))) as Hall.
  { intros st. apply Forall_forall. intros s Hs.
    rewrite Array_sort_perm in Hs. by apply list_elem_of_filter in Hs as [? _]. }
  split_and!; try apply Hall.
  rewrite !Array_sort_perm. apply filter_by_status_partition.
Qed.

Lemma length_filter_status_insert (st : SubmissionStatus)
    (l : list Submission) i s r :
  l !! i = Some s →
  (length (filter (λ x, status x = st) (<[i := r]> l))
   + (if decide (status s = st) then 1 else 0)
   = length (filter (λ x, status x = st) l)
     + (if decide (status r = st) then 1 else 0))%nat.
Proof.
  intros Hi.
  rewrite insert_take_drop by (by eapply lookup_lt_Some).
  rewrite <- (take_drop_middle l i s Hi) at 3.
  rewrite !filter_app, !length_app, !filter_cons.
  destruct (decide (status s = st)), (decide (status r = st)); simpl; lia.
Qed.

(** X9. An accepted creation adds one to [pending] and to [total] and
    leaves [approved] and [rejected] as they were. *)
Theorem createSubmission_counts_one_more_pending e1 e2 t c img emb we w :
  trim t ≠ [] → trim c ≠ [] →
  ∃ r w' n n',
    WorkflowManager.createSubmission e1 e2 t c img emb we w = (Normal r, w') ∧
    WorkflowManager.getSubmissionCounts w = (Normal n, w) ∧
    WorkflowManager.getSubmissionCounts w' = (Normal n', w') ∧
    Storage.pending n' = S (Storage.pending n) ∧
    Storage.approved n' = Storage.approved n ∧
    Storage.rejected n' = Storage.rejected n ∧
    Storage.total n' = S (Storage.total n).
Proof.
  intros Ht Hc. eexists _, _, _, _.
  split; [by apply createSubmission_accepts|].
  split; [reflexivity|]. split; [reflexivity|].
  simpl. rewrite !filter_app, !length_app, !filter_cons, !filter_nil.
  simpl. split_and!; lia.
Qed.

Lemma createSubmission_counts_one_more_pending_witness :
  ∃ r w' n n',
    WorkflowManager.createSubmission 1 0 (js "T") (js "c") None None None
      w_approved = (Normal r, w') ∧
    WorkflowManager.getSubmissionCounts w_approved = (Normal n, w_approved) ∧
    WorkflowManager.getSubmissionCounts w' = (Normal n', w') ∧
    Storage.pending n' = S (Storage.pending n) ∧
    Storage.approved n' = Storage.approved n ∧
    Storage.rejected n' = Storage.rejected n ∧
    Storage.total n' = S (Storage.total n).
Proof.
  apply (createSubmission_counts_one_more_pending 1 0 (js "T") (js "c")
           None None None w_approved); vm_compute; discriminate.
Defined.

(** X10. A transition moves one unit between the counts: [total] is kept,
    and for every status the count after the call, plus one if it was
    the old status of the record, is the count before, plus one if it
    is the new status.  So a change of status takes one from the old
    count and gives one to the new, and re-applying a status changes
    no count. *)
Theorem updateSubmissionStatus_moves_one_count
    (w : World) (id0 : JsString) (s : Submission)
    (to : SubmissionStatus) (elapsed : N) :
  Storage.getSubmission id0 w = (Normal (Some s), w) →
  ∃ r w' n n',
    WorkflowManager.updateSubmissionStatus elapsed id0 to w = (Normal r, w') ∧
    Storage.getSubmissionCounts w = (Normal n, w) ∧
    Storage.getSubmissionCounts w' = (Normal n', w') ∧
    Storage.total n' = Storage.total n ∧
    ∀ st,
      (count_of st n' + (if decide (status s = st) then 1 else 0)
       = count_of st n + (if decide (to = st) then 1 else 0))%nat.
Proof.
  intros [i Hf]%getSubmission_found. eexists _, _, _, _.
  split; [by apply updateSubmissionStatus_found|].
  split; [reflexivity|]. split; [reflexivity|].
  apply list_find_Some in Hf as (Hi & _ & _).
  split; [simpl; apply length_insert|].
  intros st.
  pose proof (length_filter_status_insert st (file w) i s
    (transitioned s to (ISO (clock w + Z.of_N elapsed))) Hi) as H.
  destruct st; simpl count_of; simpl Storage.pending;
    simpl Storage.approved; simpl Storage.rejected; simpl file.
  - by rewrite !(length_filter_value Pending _ _ (reflexivity _)).
  - by rewrite !(length_filter_value Approved _ _ (reflexivity _)).
  - by rewrite !(length_filter_value Rejected _ _ (reflexivity _)).
Qed.

Lemma updateSubmissionStatus_moves_one_count_witness :
  ∃ r w' n n',
    WorkflowManager.updateSubmissionStatus 40 id_t0 Rejected w_approved
      = (Normal r, w') ∧
    Storage.getSubmissionCounts w_approved = (Normal n, w_approved) ∧
    Storage.getSubmissionCounts w' = (Normal n', w') ∧
    Storage.total n' = Storage.total n ∧
    ∀ st,
      (count_of st n' + (if decide (status approved_at_25 = st) then 1 else 0)
       = count_of st n + (if decide (Rejected = st) then 1 else 0))%nat.
Proof.
  apply (updateSubmissionStatus_moves_one_count
           w_approved id_t0 approved_at_25 Rejected 40).
  reflexivity.
Defined.

(** ** Stored titles and contents *)

Lemma trimStart_head (s : JsString) c :
  head (trimStart s) = Some c → is_whitespace c = false.
Proof.
  induction s as [|a s IH]; [done|]. simpl.
  destruct (is_whitespace a) eqn:Ha; [done|]. simpl. by intros [= <-].
Qed.

Lemma trimStart_suffix (s : JsString) : ∃ k, s = k ++ trimStart s.
Proof.
  induction s as [|a s [k IH]]; [by exists []|]. simpl.
  destruct (is_whitespace a); [|by exists []].
  exists (a :: k). simpl. by f_equal.
Qed.

Lemma trimStart_snoc (s : JsString) c :
  is_whitespace c = false → ∃ k, trimStart (s ++ [c]) = k ++ [c].
Proof.
  intros Hc. induction s as [|a s IH]; simpl.
  - rewrite Hc. by exists [].
  - destruct (is_whitespace a); [done|]. by exists (a :: s).
Qed.

Lemma trimEnd_last (s : JsString) c :
  last (trimEnd s) = Some c → is_whitespace c = false.
Proof. unfold trimEnd. rewrite last_reverse. apply trimStart_head. Qed.

Lemma trimEnd_head (s : JsString) c :
  head s = Some c → is_whitespace c = false → head (trimEnd s) = Some c.
Proof.
  intros [s' ->]%head_Some Hc. unfold trimEnd.
  rewrite reverse_cons.
  destruct (trimStart_snoc (reverse s') c Hc) as [k ->].
  by rewrite reverse_snoc.
Qed.

Lemma trim_tidy (s : JsString) : trim s ≠ [] → tidy (trim s).
Proof.
  intros Hne. split; [done|]. unfold trim in *. split.
  - intros c Hc. destruct (trimStart s) as [|a u] eqn:Hu; [done|].
    assert (is_whitespace a = false) as Ha
      by (apply (trimStart_head s); by rewrite Hu).
    rewrite (trimEnd_head (a :: u) a eq_refl Ha) in Hc.
    by simplify_eq.
  - apply trimEnd_last.
Qed.

Lemma tidy_trim (s : JsString) : tidy s → trim s = s.
Proof.
  intros (Hne & Hh & Hl). unfold trim.
  destruct s as [|a s]; [done|].
  assert (trimStart (a :: s) = a :: s) as ->
    by (simpl; by rewrite (Hh a eq_refl)).
  unfold trimEnd.
  destruct (last (a :: s)) as [d|] eqn:Hd.
  2: { apply last_is_Some in Hne. destruct Hne. congruence. }
  pose proof Hd as [k Hk]%last_Some. rewrite Hk, reverse_snoc. simpl.
  rewrite (Hl d eq_refl). by rewrite <- reverse_snoc, reverse_involutive.
Qed.

Lemma perform_keeps_tidy op w :
  Forall (λ s, tidy (title s) ∧ tidy (content s)) (file w) →
  Forall (λ s, tidy (title s) ∧ tidy (content s)) (file (perform op w)).
Proof.
  intros Hw.
  assert (∀ e i st,
    Forall (λ s, tidy (title s) ∧ tidy (content s))
      (file (WorkflowManager.updateSubmissionStatus e i st w).2)) as Hup.
  { intros e i st.
    destruct (first_with_id i (file w)) as [[j s]|] eqn:Hf.
    - rewrite (updateSubmissionStatus_found _ _ _ _ _ _ Hf). simpl.
      apply list_find_Some in Hf as (Hj & _ & _).
      apply Forall_insert; [done|].
      exact (Forall_lookup_1 _ _ _ _ Hw Hj).
    - unfold WorkflowManager.updateSubmissionStatus, bind.
      by rewrite getSubmission_eq, Hf. }
  destruct op as [e1 e2 t c img emb we| | | |i]; simpl; try apply Hup.
  - destruct (decide (trim t = [])) as [Ht|Ht];
      [by rewrite createSubmission_blank_title|].
    destruct (decide (trim c = [])) as [Hc|Hc];
      [by rewrite createSubmission_blank_content|].
    rewrite createSubmission_accepts by done. simpl.
    apply Forall_app. split; [done|].
    repeat constructor; simpl; by apply trim_tidy.
  - unfold WorkflowManager.deleteSubmission, Storage.deleteSubmission, bind.
    simpl. destruct (_ <? _)%nat; [|done]. simpl.
    rewrite Forall_forall in *.
    intros s [_ Hs]%list_elem_of_filter. by apply Hw.
Qed.

(** X11. In every store the core operations build from the empty one (or
    from any store of which this already holds), each record's title
    and content are non-empty and neither begin nor end with a
    white-space character; trimming them again changes nothing. *)
Theorem stored_titles_and_contents_are_trimmed
    (w : World) (ops : list Operation) :
  Forall (λ s, tidy (title s) ∧ tidy (content s)) (file w) →
  ∀ s, s ∈ file (perform_all ops w) →
    tidy (title s) ∧ tidy (content s) ∧
    trim (title s) = title s ∧ trim (content s) = content s.
Proof.
  intros Hw.
  assert (Forall (λ s, tidy (title s) ∧ tidy (content s))
            (file (perform_all ops w))) as H.
  { revert w Hw. induction ops as [|op ops IH]; intros w Hw; [done|].
    simpl. apply IH. by apply perform_keeps_tidy. }
  intros s Hs. rewrite Forall_forall in H. destruct (H s Hs) as [Ht Hc].
  split_and!; try done; by apply tidy_trim.
Qed.

Lemma stored_titles_and_contents_are_trimmed_witness :
  Forall (λ s, tidy (title s) ∧ tidy (content s)) (file w0) ∧
  Forall (λ s, tidy (title s) ∧ tidy (content s) ∧
               trim (title s) = title s ∧ trim (content s) = content s)
    (file (perform_all session w0)).
Proof.
  split; [constructor|]. apply Forall_forall.
  apply (stored_titles_and_contents_are_trimmed w0 session).
  constructor.
Defined.

(** ** Ids, when creations are at least a millisecond apart *)

Lemma NoDup_fmap_filter {A B} (f : A → B) (P : A → Prop)
    `{!∀ x, Decision (P x)} (l : list A) :
  NoDup (f <$> l) → NoDup (f <$> filter P l).
Proof.
  induction l as [|x l IH]; [done|]. rewrite fmap_cons.
  intros [Hx Hl]%NoDup_cons. rewrite filter_cons.
  destruct (decide (P x)); [|by apply IH].
  rewrite fmap_cons. apply NoDup_cons. split; [|by apply IH].
  intros (y & Hy & [_ Hin]%list_elem_of_filter)%list_elem_of_fmap.
  apply Hx. apply list_elem_of_fmap. by exists y.
Qed.

Lemma ids_behind_clock_later w (t : Z) l :
  clock w ≤ t →
  Forall (λ s, ∃ u, id s = Number_toString u ∧ u ≤ clock w) l →
  Forall (λ s, ∃ u, id s = Number_toString u ∧ u ≤ t) l.
Proof.
  intros Ht H. eapply Forall_impl; [exact H|].
  intros s (u & ? & ?). exists u. split; [done|lia].
Qed.

Lemma perform_keeps_ids_distinct op w :
  spaced op →
  ids_behind_clock w ∧ NoDup (stored_ids w) →
  ids_behind_clock (perform op w) ∧ NoDup (stored_ids (perform op w)).
Proof.
  intros Hop [Hb Hn].
  assert (∀ e i st,
    ids_behind_clock (WorkflowManager.updateSubmissionStatus e i st w).2 ∧
    NoDup (stored_ids (WorkflowManager.updateSubmissionStatus e i st w).2))
    as Hup.
  { intros e i st.
    destruct (first_with_id i (file w)) as [[j s]|] eqn:Hf.
    - rewrite (updateSubmissionStatus_found _ _ _ _ _ _ Hf).
      apply list_find_Some in Hf as (Hj & _ & _).
      unfold ids_behind_clock, stored_ids. simpl. split.
      + apply Forall_insert.
        * eapply ids_behind_clock_later; [|exact Hb]. lia.
        * destruct (Forall_lookup_1 _ _ _ _ Hb Hj) as (u & ? & ?).
          exists u. split; [done|lia].
      + by erewrite stored_ids_insert.
    - unfold WorkflowManager.updateSubmissionStatus, bind.
      by rewrite getSubmission_eq, Hf. }
  destruct op as [e1 e2 t c img emb we| | | |i]; simpl; try apply Hup.
  - destruct (decide (trim t = [])) as [Ht|Ht];
      [by rewrite createSubmission_blank_title|].
    destruct (decide (trim c = [])) as [Hc|Hc];
      [by rewrite createSubmission_blank_content|].
    rewrite createSubmission_accepts by done.
    unfold ids_behind_clock, stored_ids. simpl. split.
    + apply Forall_app. split.
      * eapply ids_behind_clock_later; [|exact Hb]. lia.
      * repeat constructor. simpl. eexists. split; [done|lia].
    + rewrite fmap_app. apply NoDup_app. split; [done|].
      split; [|apply NoDup_singleton].
      intros x (s & -> & Hs)%list_elem_of_fmap Hx%list_elem_of_singleton.
      simpl in Hx, Hop. unfold ids_behind_clock in Hb.
      rewrite Forall_forall in Hb. destruct (Hb s Hs) as (u & Hu & Hle).
      rewrite Hu in Hx. apply Number_toString_inj in Hx. lia.
  - unfold WorkflowManager.deleteSubmission, Storage.deleteSubmission, bind.
    simpl. destruct (_ <? _)%nat; [|done].
    unfold ids_behind_clock, stored_ids in *. simpl. split.
    + rewrite Forall_forall in *.
      intros s [_ Hs]%list_elem_of_filter. by apply Hb.
    + by apply NoDup_fmap_filter.
Qed.

(** X12. While every creation is issued at least one millisecond
    after the previous clock reading, the ids stay distinct:
    from the empty store, or any store with distinct ids that are
    instants not ahead of the clock, every sequence of core operations
    leads to a store in which no two records share an id. *)
Theorem spaced_creations_keep_ids_distinct
    (w : World) (ops : list Operation) :
  ids_behind_clock w → NoDup (stored_ids w) → Forall spaced ops →
  NoDup (stored_ids (perform_all ops w)).
Proof.
  intros Hb Hn Hops.
  assert (ids_behind_clock (perform_all ops w) ∧
          NoDup (stored_ids (perform_all ops w))) as [_ H]; [|done].
  revert w Hb Hn. induction Hops as [|op ops Hop _ IH]; intros w Hb Hn;
    [done|].
  simpl. destruct (perform_keeps_ids_distinct op w Hop (conj Hb Hn)).
  by apply IH.
Qed.

Lemma spaced_creations_keep_ids_distinct_witness :
  NoDup (stored_ids (perform_all spaced_session w0)).
Proof.
  apply (spaced_creations_keep_ids_distinct w0 spaced_session).
  - constructor.
  - constructor.
  - unfold spaced_session. repeat constructor.
Defined.

(** X13. When no two stored records share an id, every stored record is the
    one [getSubmission] returns for its id. *)
Theorem getSubmission_finds_every_record (w : World) (s : Submission) :
  NoDup (stored_ids w) → s ∈ file w →
  Storage.getSubmission (id s) w = (Normal (Some s), w).
Proof.
  intros Hn Hs. rewrite getSubmission_eq.
  destruct (first_with_id_present (id s) (file w) s Hs eq_refl)
    as (i & old & Hf).
  rewrite Hf. simpl. repeat f_equal.
  apply list_find_Some in Hf as (Hi & Hid & _).
  apply list_elem_of_lookup in Hs as [j Hj].
  assert (i = j) as ->.
  { eapply (NoDup_lookup _ _ _ (id s) Hn); unfold stored_ids;
      rewrite list_lookup_fmap.
    - by rewrite Hi; simpl; rewrite Hid.
    - by rewrite Hj. }
  congruence.
Qed.

Lemma getSubmission_finds_every_record_witness :
  Storage.getSubmission (id approved_at_25) w_approved
    = (Normal (Some approved_at_25), w_approved).
Proof.
  apply (getSubmission_finds_every_record w_approved approved_at_25).
  - unfold stored_ids. simpl. apply NoDup_singleton.
  - apply list_elem_of_singleton. reflexivity.
Defined.

(** ** The newest submission *)

Lemma Array_sort_snoc_newest (l : list Submission) r :
  Forall (λ s, getTime (createdAt s) < getTime (createdAt r)) l →
  Array_sort Storage.byCreatedAtDesc (l ++ [r])
  = r :: Array_sort Storage.byCreatedAtDesc l.
Proof.
  induction 1 as [|x l Hx _ IH]; [done|].
  simpl. rewrite IH. simpl. rewrite byCreatedAtDesc_key.
  by destruct (Z.ltb_spec 0 (getTime (createdAt r) - getTime (createdAt x)));
    [|lia].
Qed.

(** X14. A submission created at least a millisecond after the last clock
    reading, in a store holding no record created ahead of the clock,
    comes first in [getAllSubmissions], and the rest of the list is
    what [getAllSubmissions] returned before. *)
Theorem createSubmission_is_listed_first e1 e2 t c img emb we w :
  stamped_in_past w → trim t ≠ [] → trim c ≠ [] → (0 < e1 + e2)%N →
  ∃ r w' all,
    WorkflowManager.createSubmission e1 e2 t c img emb we w = (Normal r, w') ∧
    WorkflowManager.getAllSubmissions w = (Normal all, w) ∧
    WorkflowManager.getAllSubmissions w' = (Normal (r :: all), w').
Proof.
  intros Hw Ht Hc He. eexists _, _, _.
  split; [by apply createSubmission_accepts|].
  split; [reflexivity|].
  unfold WorkflowManager.getAllSubmissions, Storage.getAllSubmissions, bind.
  simpl. rewrite Array_sort_snoc_newest; [done|].
  eapply Forall_impl; [exact Hw|]. simpl. intros s [_ Hs]. lia.
Qed.

Lemma createSubmission_is_listed_first_witness :
  ∃ r w' all,
    WorkflowManager.createSubmission 1 0 (js "T") (js "c") None None None
      w_approved = (Normal r, w') ∧
    WorkflowManager.getAllSubmissions w_approved
      = (Normal all, w_approved) ∧
    WorkflowManager.getAllSubmissions w' = (Normal (r :: all), w').
Proof.
  apply (createSubmission_is_listed_first 1 0 (js "T") (js "c")
           None None None w_approved).
  - repeat constructor; simpl; auto; vm_compute; discriminate.
  - vm_compute. discriminate.
  - vm_compute. discriminate.
  - reflexivity.
Defined.

(** * The parser *)

(** Settles a closed decidable statement by evaluation. *)
Ltac decide_closed :=
  match goal with
  | |- ?P => apply (bool_decide_unpack P); vm_compute; exact I
  end.

(** ** Lines *)

Lemma trimStart_all_whitespace (s : JsString) :
  trimStart s = [] ↔ Forall (λ c, is_whitespace c = true) s.
Proof.
  induction s as [|a s IH]; simpl; [by split; [constructor|]|].
  destruct (is_whitespace a) eqn:Ha.
  - rewrite IH. split; [by constructor|by inv 1].
  - split; [done|]. inv 1. congruence.
Qed.

Lemma trim_all_whitespace (s : JsString) :
  trim s = [] ↔ Forall (λ c, is_whitespace c = true) s.
Proof.
  rewrite <- trimStart_all_whitespace. unfold trim. split.
  - intros H. destruct (trimStart s) as [|a u] eqn:Hu; [done|].
    assert (is_whitespace a = false) as Ha
      by (apply (trimStart_head s); by rewrite Hu).
    pose proof (trimEnd_head (a :: u) a eq_refl Ha) as Hh.
    by rewrite H in Hh.
  - by intros ->.
Qed.

Lemma split_not_nil sep s : split sep s ≠ [].
Proof.
  destruct s as [|c s]; simpl; [done|].
  destruct (bool_decide (c = sep)); [done|]. by destruct (split sep s).
Qed.

(** Joining the pieces of a split gives the string back. *)
Lemma join_split sep s : join sep (split sep s) = s.
Proof.
  induction s as [|c s IH]; [done|]. simpl.
  pose proof (split_not_nil sep s) as Hne.
  destruct (bool_decide_reflect (c = sep)) as [->|Hc].
  - simpl. destruct (split sep s) as [|l ls]; [done|]. by rewrite IH.
  - destruct (split sep s) as [|l ls]; [done|].
    destruct ls as [|l' ls]; simpl in *; by rewrite <- IH.
Qed.

Lemma split_no_sep sep (l : JsString) : sep ∉ l → split sep l = [l].
Proof.
  induction l as [|c l IH]; [done|]. simpl.
  intros [Hc Hl]%not_elem_of_cons.
  rewrite bool_decide_eq_false_2 by done. by rewrite IH.
Qed.

Lemma split_app_sep sep (l rest : JsString) :
  sep ∉ l → split sep (l ++ sep :: rest) = l :: split sep rest.
Proof.
  induction l as [|c l IH]; simpl.
  - intros _. by rewrite bool_decide_eq_true_2.
  - intros [Hc Hl]%not_elem_of_cons.
    rewrite bool_decide_eq_false_2 by done. by rewrite IH.
Qed.

(** Splitting the join of separator-free pieces gives the pieces back. *)
Lemma split_join sep (ls : list JsString) :
  ls ≠ [] → Forall (λ l, sep ∉ l) ls → split sep (join sep ls) = ls.
Proof.
  intros Hne Hls. induction Hls as [|l ls Hl Hls IH]; [done|]. clear Hne.
  destruct ls as [|l' ls]; [by apply split_no_sep|].
  specialize (IH ltac:(done)).
  change (join sep (l :: l' :: ls)) with (l ++ sep :: join sep (l' :: ls)).
  by rewrite split_app_sep, IH.
Qed.

Lemma split_all_whitespace sep s :
  Forall (λ c, is_whitespace c = true) s →
  Forall (Forall (λ c, is_whitespace c = true)) (split sep s).
Proof.
  induction 1 as [|c s Hc Hs IH]; simpl; [by repeat constructor|].
  destruct (bool_decide (c = sep)); [by constructor|].
  destruct (split sep s) as [|l ls]; [by repeat constructor|].
  inv IH. constructor; [by constructor|done].
Qed.

Lemma join_all_whitespace (ls : list JsString) :
  Forall (Forall (λ c, is_whitespace c = true)) ls →
  Forall (λ c, is_whitespace c = true) (join 10 ls).
Proof.
  induction 1 as [|l ls Hl Hls IH]; [constructor|].
  destruct ls as [|l' ls]; [done|].
  change (join 10 (l :: l' :: ls)) with (l ++ 10%N :: join 10 (l' :: ls)).
  apply Forall_app. split; [done|]. by constructor.
Qed.

(** The lines the parser works on: trimmed, the empty ones dropped. *)
Lemma lines_tidy (raw : JsString) :
  Forall tidy (filter (λ line, (0 < length line)%nat)
                 (trim <$> split 10 raw)).
Proof.
  apply Forall_forall. intros l [Hlen Hl]%list_elem_of_filter.
  apply list_elem_of_fmap in Hl as (x & -> & _).
  apply trim_tidy. intros Hx. rewrite Hx in Hlen. simpl in Hlen. lia.
Qed.

Lemma lines_nil_iff (raw : JsString) :
  filter (λ line, (0 < length line)%nat) (trim <$> split 10 raw) = []
  ↔ Forall (λ c, is_whitespace c = true) raw.
Proof.
  split.
  - intros H. rewrite <- (join_split 10 raw).
    apply join_all_whitespace, Forall_forall. intros l Hl.
    apply trim_all_whitespace.
    destruct (trim l) as [|c u] eqn:Hu; [done|].
    assert (trim l ∈ filter (λ line, (0 < length line)%nat)
                       (trim <$> split 10 raw)) as Hin.
    { apply list_elem_of_filter. split; [rewrite Hu; simpl; lia|].
      by apply list_elem_of_fmap_2. }
    rewrite H in Hin. by apply elem_of_nil in Hin.
  - intros H%(split_all_whitespace 10).
    induction H as [|l ls Hl _ IH]; [done|].
    rewrite fmap_cons. apply trim_all_whitespace in Hl. rewrite Hl.
    rewrite filter_cons_False by (simpl; lia). done.
Qed.

Lemma join_tidy (ls : list JsString) :
  ls ≠ [] → Forall tidy ls → tidy (join 10 ls).
Proof.
  intros Hne Hls. induction Hls as [|l ls Hl Hls IH]; [done|]. clear Hne.
  destruct ls as [|l' ls]; [done|].
  specialize (IH ltac:(done)).
  change (join 10 (l :: l' :: ls)) with (l ++ 10%N :: join 10 (l' :: ls)).
  destruct Hl as (Hne & Hh & _), IH as (Hne' & _ & Hlast).
  destruct l as [|a l]; [done|]. split_and!.
  - done.
  - intros c Hc. apply Hh. by simpl in *.
  - intros c Hc. apply Hlast.
    rewrite last_app in Hc. rewrite last_cons in Hc.
    destruct (last (join 10 (l' :: ls))) eqn:E; [done|].
    apply last_is_Some in Hne'. rewrite E in Hne'. by destruct Hne'.
Qed.

(** ** Matching *)

Lemma search_Bol_later re n s : search (Bol :: re) (S n) s = None.
Proof. revert n. induction s as [|c s IH]; intros n; simpl; [done|apply IH]. Qed.

Lemma search_Bol re s : search (Bol :: re) 0 s = rmatch re [] None 0%nat s.
Proof.
  destruct s as [|c s]; simpl.
  - by destruct (rmatch re [] None 0%nat []).
  - destruct (rmatch re [] None 0%nat (c :: s)); [done|].
    apply search_Bol_later.
Qed.

(** A lazy star steps over a run of its class on which the rest of the
    pattern fails, and stops where the rest first succeeds. *)
Lemma lazy_star_finds cs k (run s : JsString) r :
  Forall (λ c, in_set cs c = true) run →
  (∀ r1 c r2 p, run = r1 ++ c :: r2 → k p (c :: r2 ++ s) = None) →
  (∀ p, k p s = Some r) →
  ∀ pos, lazy_star cs k pos (run ++ s) = Some r.
Proof.
  intros Hrun. induction Hrun as [|c run Hc Hrun IH]; intros Hfail Hk pos.
  - destruct s; simpl; by rewrite Hk.
  - simpl. rewrite (Hfail [] c run pos eq_refl), Hc.
    apply IH; [|done].
    intros r1 c' r2 p ->. by apply (Hfail (c :: r1)).
Qed.

Lemma greedy_star_run cs k pos (s : JsString) r :
  greedy_star cs k pos s = Some r →
  ∃ run s' pos',
    s = run ++ s' ∧ Forall (λ c, in_set cs c = true) run ∧
    k pos' s' = Some r.
Proof.
  revert pos. induction s as [|c s IH]; intros pos; simpl.
  - intros H. by exists [], [], pos.
  - destruct (in_set cs c) eqn:Hc; [|intros H; by exists [], (c :: s), pos].
    destruct (greedy_star cs k (S pos) s) as [r'|] eqn:Hg.
    + intros [= ->]. destruct (IH _ Hg) as (run & s' & pos' & -> & ? & ?).
      exists (c :: run), s', pos'. split; [done|]. split; [by constructor|done].
    + intros H. by exists [], (c :: s), pos.
Qed.

Lemma lazy_star_length cs k :
  (∀ pos s r, k pos s = Some r → (length r.1 ≤ length s)%nat) →
  ∀ pos s r, lazy_star cs k pos s = Some r → (length r.1 ≤ length s)%nat.
Proof.
  intros Hk pos s. revert pos. induction s as [|c s IH]; intros pos r; simpl.
  - destruct (k pos []) eqn:E; [|done]. intros [= <-]. by apply (Hk _ _ _ E).
  - destruct (k pos (c :: s)) eqn:E.
    + intros [= <-]. by apply (Hk _ _ _ E).
    + destruct (in_set cs c); [|done]. intros H%IH. lia.
Qed.

Lemma greedy_star_length cs k :
  (∀ pos s r, k pos s = Some r → (length r.1 ≤ length s)%nat) →
  ∀ pos s r, greedy_star cs k pos s = Some r → (length r.1 ≤ length s)%nat.
Proof.
  intros Hk pos s r (run & s' & pos' & -> & _ & H%Hk)%greedy_star_run.
  rewrite length_app. lia.
Qed.

(** A match never gives back more input than it was given. *)
Lemma rmatch_length re :
  ∀ o c pos s r, rmatch re o c pos s = Some r → (length r.1 ≤ length s)%nat.
Proof.
  induction re as [|n re IH]; intros o c pos s r; simpl.
  - by intros [= <-].
  - destruct n.
    + destruct s as [|a s]; [done|]. destruct (in_set cs a); [|done].
      intros H%IH. simpl. lia.
    + destruct s as [|a s]; [apply IH|]. destruct (in_set cs a); [|apply IH].
      destruct (rmatch re o c (S pos) s) eqn:E; [|apply IH].
      intros [= <-]. apply IH in E. simpl. lia.
    + apply lazy_star_length. intros ???. apply IH.
    + destruct s as [|a s]; [done|]. destruct (in_set cs a); [|done].
      intros H%greedy_star_length; [simpl; lia|]. intros ???. apply IH.
    + apply IH.
    + apply IH.
    + destruct (bool_decide (pos = 0%nat)); [apply IH|done].
    + destruct s; [apply IH|done].
Qed.

Lemma rmatch_One cs re o c pos a s :
  rmatch (One cs :: re) o c pos (a :: s)
  = if in_set cs a then rmatch re o c (S pos) s else None.
Proof. reflexivity. Qed.

Lemma rmatch_One_nil cs re o c pos : rmatch (One cs :: re) o c pos [] = None.
Proof. reflexivity. Qed.

Lemma rmatch_GreedyPlus cs re o c pos a s :
  rmatch (GreedyPlus cs :: re) o c pos (a :: s)
  = if in_set cs a then greedy_star cs (rmatch re o c) (S pos) s else None.
Proof. reflexivity. Qed.

Lemma rmatch_LazyStar cs re o c pos s :
  rmatch (LazyStar cs :: re) o c pos s = lazy_star cs (rmatch re o c) pos s.
Proof. reflexivity. Qed.

Lemma rmatch_Open re o c pos s :
  rmatch (Open :: re) o c pos s = rmatch re s c pos s.
Proof. reflexivity. Qed.

Lemma rmatch_Close re o c pos s :
  rmatch (Close :: re) o c pos s
  = rmatch re o (Some (take (length o - length s) o)) pos s.
Proof. reflexivity. Qed.

Lemma search_imgRegex_shorter pos s r :
  search Parser.imgRegex pos s = Some r → (length r.1 < length s)%nat.
Proof.
  revert pos. induction s as [|a s IH]; intros pos; [done|].
  unfold search; fold search.
  destruct (rmatch Parser.imgRegex [] None pos (a :: s)) as [r'|] eqn:E.
  - intros [= <-]. unfold Parser.imgRegex in E. rewrite rmatch_One in E.
    destruct (in_set (Lit 60) a); [|done].
    apply rmatch_length in E. simpl. lia.
  - intros H%IH. simpl. lia.
Qed.

(** The loop that collects the embedded images ends: once the fuel
    exceeds the length of the text, more fuel changes nothing. *)
Lemma exec_all_imgRegex_fuel n m pos s :
  (length s < n)%nat → (length s < m)%nat →
  exec_all n Parser.imgRegex pos s = exec_all m Parser.imgRegex pos s.
Proof.
  revert m pos s. induction n as [|n IH]; intros m pos s Hn Hm; [lia|].
  destruct m as [|m]; [lia|]. simpl.
  destruct (search Parser.imgRegex pos s) as [[rest cap]|] eqn:E; [|done].
  apply search_imgRegex_shorter in E. simpl in E.
  f_equal. apply IH; lia.
Qed.

Lemma in_set_Lit a : in_set (Lit a) a = true.
Proof. by apply bool_decide_eq_true_2. Qed.

Lemma in_set_Dot c : c ∉ LineTerminators → in_set Dot c = true.
Proof. intros H. simpl. by rewrite bool_decide_eq_false_2. Qed.

Lemma lazy_star_run cs k pos (s : JsString) r :
  lazy_star cs k pos s = Some r →
  ∃ run s' pos',
    s = run ++ s' ∧ Forall (λ c, in_set cs c = true) run ∧
    k pos' s' = Some r.
Proof.
  revert pos. induction s as [|c s IH]; intros pos; simpl.
  - destruct (k pos []) eqn:E; [|done]. intros [= <-]. by exists [], [], pos.
  - destruct (k pos (c :: s)) eqn:E.
    + intros [= <-]. by exists [], (c :: s), pos.
    + destruct (in_set cs c) eqn:Hc; [|done].
      intros (run & s' & pos' & -> & ? & ?)%IH.
      exists (c :: run), s', pos'. split; [done|]. split; [by constructor|done].
Qed.

Lemma Forall_in_set_Dot (l : JsString) :
  Forall (λ c, in_set Dot c = true) l ↔ Forall (λ c, c ∉ LineTerminators) l.
Proof.
  apply Forall_iff. intros c. simpl. rewrite negb_true_iff.
  by rewrite bool_decide_eq_false.
Qed.

Lemma match_image_line_complete (alt url : JsString) :
  93%N ∉ alt →
  Forall (λ c, c ∉ LineTerminators) alt →
  Forall (λ c, c ∉ LineTerminators) url →
  String_match Parser.IMAGE_REGEX
    (js "![" ++ alt ++ js "](" ++ url ++ js ")") = Some (Some url).
Proof.
  intros Halt Hlt1 Hlt2. unfold String_match, Parser.IMAGE_REGEX.
  rewrite search_Bol.
  change (js "![") with [33; 91]%N. change (js "](") with [93; 40]%N.
  change (js ")") with [41%N]. simpl app.
  rewrite !rmatch_One, !in_set_Lit, rmatch_LazyStar.
  rewrite (lazy_star_finds Dot _ alt _ ([], Some url)); [done|..].
  - by apply Forall_in_set_Dot.
  - intros r1 c r2 p ->. rewrite rmatch_One. simpl.
    rewrite bool_decide_eq_false_2; [done|].
    intros ->. apply Halt. apply elem_of_app. right. left.
  - intros p. rewrite !rmatch_One, !in_set_Lit, rmatch_Open, rmatch_LazyStar.
    apply lazy_star_finds.
    + by apply Forall_in_set_Dot.
    + intros r1 c r2 p' _. rewrite rmatch_Close, rmatch_One.
      destruct (in_set (Lit 41) c); [|done]. by destruct r2.
    + intros p'. rewrite rmatch_Close, rmatch_One, in_set_Lit. simpl.
      rewrite length_app. simpl.
      replace (length url + 1 - 1)%nat with (length url) by lia.
      by rewrite take_app_length.
Qed.

Lemma match_image_line_sound (s : JsString) m :
  String_match Parser.IMAGE_REGEX s = Some m →
  ∃ alt url,
    s = js "![" ++ alt ++ js "](" ++ url ++ js ")" ∧ m = Some url ∧
    Forall (λ c, c ∉ LineTerminators) alt ∧
    Forall (λ c, c ∉ LineTerminators) url.
Proof.
  unfold String_match, Parser.IMAGE_REGEX. rewrite search_Bol.
  change (js "![") with [33; 91]%N. change (js "](") with [93; 40]%N.
  change (js ")") with [41%N].
  destruct (rmatch _ _ _ _ s) as [[rest cap]|] eqn:E; [|done].
  simpl. intros [= <-].
  destruct s as [|a s]; [done|]. rewrite rmatch_One in E.
  simpl in_set in E. case_bool_decide; [subst a|done].
  destruct s as [|a s]; [done|]. rewrite rmatch_One in E.
  simpl in_set in E. case_bool_decide; [subst a|done].
  rewrite rmatch_LazyStar in E.
  apply lazy_star_run in E as (alt & s1 & p1 & -> & Halt & E).
  destruct s1 as [|a s1]; [done|]. rewrite rmatch_One in E.
  simpl in_set in E. case_bool_decide; [subst a|done].
  destruct s1 as [|a s1]; [done|]. rewrite rmatch_One in E.
  simpl in_set in E. case_bool_decide; [subst a|done].
  rewrite rmatch_Open, rmatch_LazyStar in E.
  apply lazy_star_run in E as (url & s2 & p2 & -> & Hurl & E).
  rewrite rmatch_Close in E.
  destruct s2 as [|a s2]; [done|]. rewrite rmatch_One in E.
  simpl in_set in E. case_bool_decide; [subst a|done].
  destruct s2 as [|? ?]; [|done]. simpl in E. injection E as <- <-.
  exists alt, url. split; [done|]. split.
  - rewrite length_app. simpl.
    replace (length url + 1 - 1)%nat with (length url) by lia.
    by rewrite take_app_length.
  - split; by apply Forall_in_set_Dot.
Qed.

(** X15. [IMAGE_REGEX] recognises the Markdown image lines.  Whatever it
    matches has the form [![alt](url)] with no line terminator in [alt]
    and [url], and the string captured is [url]; and every line of that
    form whose [alt] holds no closing bracket is matched, with [url]
    captured. *)
Theorem IMAGE_REGEX_matches_markdown_images :
  (∀ s m,
     String_match Parser.IMAGE_REGEX s = Some m →
     ∃ alt url,
       s = js "![" ++ alt ++ js "](" ++ url ++ js ")" ∧ m = Some url ∧
       Forall (λ c, c ∉ LineTerminators) alt ∧
       Forall (λ c, c ∉ LineTerminators) url) ∧
  (∀ alt url,
     93%N ∉ alt →
     Forall (λ c, c ∉ LineTerminators) alt →
     Forall (λ c, c ∉ LineTerminators) url →
     String_match Parser.IMAGE_REGEX
       (js "![" ++ alt ++ js "](" ++ url ++ js ")") = Some (Some url)).
Proof.
  split.
  - apply match_image_line_sound.
  - apply match_image_line_complete.
Qed.

Lemma IMAGE_REGEX_matches_markdown_images_witness :
  String_match Parser.IMAGE_REGEX
    (js "![" ++ js "alt text" ++ js "](" ++ js "image.jpg" ++ js ")")
  = Some (Some (js "image.jpg")).
Proof.
  apply (proj2 IMAGE_REGEX_matches_markdown_images
           (js "alt text") (js "image.jpg")).
  - decide_closed.
  - decide_closed.
  - decide_closed.
Defined.

Lemma rmatch_Opt cs re o c pos a s :
  rmatch (Opt cs :: re) o c pos (a :: s)
  = if in_set cs a then
      match rmatch re o c (S pos) s with
      | Some r => Some r
      | None => rmatch re o c pos (a :: s)
      end
    else rmatch re o c pos (a :: s).
Proof. reflexivity. Qed.

(** Consumes one literal node of a successful match. *)
Ltac step_One E s :=
  let a := fresh "a" in
  destruct s as [|a s]; [done|];
  rewrite rmatch_One in E; simpl in_set in E;
  case_bool_decide; [subst a|done].

(** X16. [URL_REGEX] accepts exactly the lines that begin with [http://] or
    [https://]. *)
Theorem URL_REGEX_tests_http_prefix (s : JsString) :
  RegExp_test Parser.URL_REGEX s = true ↔
  js "http://" `prefix_of` s ∨ js "https://" `prefix_of` s.
Proof.
  unfold RegExp_test, Parser.URL_REGEX.
  rewrite bool_decide_eq_true, search_Bol. split.
  - intros [r E].
    step_One E s. step_One E s. step_One E s. step_One E s.
    destruct s as [|a s]; [done|]. rewrite rmatch_Opt in E.
    simpl in_set in E. case_bool_decide as Ha.
    + subst a.
      destruct (rmatch _ [] None 5%nat s) as [r'|] eqn:E'; [|done].
      clear E. right.
      step_One E' s. step_One E' s. step_One E' s.
      by exists s.
    + left. rewrite rmatch_One in E. simpl in_set in E.
      case_bool_decide; [subst a|done].
      step_One E s. step_One E s.
      by exists s.
  - intros [[k ->]|[k ->]]; vm_compute; eauto.
Qed.

Lemma take_cons_run {A} (c : A) (run rest : list A) :
  take (length (c :: run ++ rest) - length rest) (c :: run ++ rest)
  = c :: run.
Proof.
  simpl length. rewrite length_app.
  replace (S (length run + length rest) - length rest)%nat
    with (S (length run)) by lia.
  simpl. f_equal. apply take_app_length.
Qed.

(** What [imgRegex] captures is not empty and holds no double quote. *)
Lemma imgRegex_capture o c pos s rest cap :
  rmatch Parser.imgRegex o c pos s = Some (rest, cap) →
  ∃ v, cap = Some v ∧ v ≠ [] ∧ 34%N ∉ v.
Proof.
  unfold Parser.imgRegex. intros E.
  step_One E s. step_One E s. step_One E s. step_One E s.
  destruct s as [|a s]; [done|]. rewrite rmatch_GreedyPlus in E.
  destruct (in_set (NotLit 62) a); [|done].
  apply greedy_star_run in E as (_ & s1 & p1 & _ & _ & E).
  step_One E s1. step_One E s1. step_One E s1. step_One E s1. step_One E s1.
  rewrite rmatch_Open in E.
  destruct s1 as [|b s1]; [done|]. rewrite rmatch_GreedyPlus in E.
  destruct (in_set (NotLit 34) b) eqn:Hb; [|done].
  apply greedy_star_run in E as (run & s2 & p2 & -> & Hrun & E).
  rewrite rmatch_Close, take_cons_run in E.
  step_One E s2. simpl in E. injection E as <- <-.
  exists (b :: run). split; [done|]. split; [done|].
  apply not_elem_of_cons. split.
  - simpl in Hb. apply negb_true_iff, bool_decide_eq_false in Hb. congruence.
  - intros Hin. rewrite Forall_forall in Hrun. apply Hrun in Hin.
    by vm_compute in Hin.
Qed.

Lemma search_imgRegex_capture pos s rest cap :
  search Parser.imgRegex pos s = Some (rest, cap) →
  ∃ v, cap = Some v ∧ v ≠ [] ∧ 34%N ∉ v.
Proof.
  revert pos. induction s as [|a s IH]; intros pos.
  - unfold search. by destruct (rmatch _ _ _ _ _) eqn:E.
  - unfold search; fold search.
    destruct (rmatch Parser.imgRegex [] None pos (a :: s)) as [r'|] eqn:E.
    + intros [= ->]. by eapply imgRegex_capture.
    + apply IH.
Qed.

Lemma exec_all_imgRegex_entries fuel pos s :
  Forall (λ v, v ≠ [] ∧ 34%N ∉ v) (exec_all fuel Parser.imgRegex pos s).
Proof.
  revert pos s. induction fuel as [|fuel IH]; intros pos s; [constructor|].
  simpl. destruct (search Parser.imgRegex pos s) as [[rest cap]|] eqn:E;
    [|constructor].
  apply search_imgRegex_capture in E as (v & -> & ? & ?).
  constructor; [done|apply IH].
Qed.

(** ** Parsed documents *)

Lemma split_no_sep_inside sep s : Forall (λ l, sep ∉ l) (split sep s).
Proof.
  induction s as [|c s IH]; simpl; [repeat constructor; apply not_elem_of_nil|].
  destruct (bool_decide_reflect (c = sep)) as [->|Hc].
  - constructor; [apply not_elem_of_nil|done].
  - destruct (split sep s) as [|l ls];
      [repeat constructor; by apply not_elem_of_cons; split;
         [congruence|apply not_elem_of_nil]|].
    inv IH. constructor; [|done].
    apply not_elem_of_cons. split; [congruence|done].
Qed.

Lemma trim_elem_of (s : JsString) c : c ∈ trim s → c ∈ s.
Proof.
  unfold trim, trimEnd. rewrite elem_of_reverse.
  destruct (trimStart_suffix (reverse (trimStart s))) as [k Hk].
  intros Hc.
  assert (c ∈ reverse (trimStart s)) as Hc'
    by (rewrite Hk; apply elem_of_app; by right).
  rewrite elem_of_reverse in Hc'.
  destruct (trimStart_suffix s) as [k' Hk'].
  rewrite Hk'. apply elem_of_app. by right.
Qed.

Lemma lines_single (raw : JsString) :
  Forall single_line (filter (λ line, (0 < length line)%nat)
                        (trim <$> split 10 raw)).
Proof.
  pose proof (lines_tidy raw) as Ht. rewrite Forall_forall in *.
  intros l Hl. split; [by apply Ht|].
  apply list_elem_of_filter in Hl as [_ Hl].
  apply list_elem_of_fmap in Hl as (x & -> & Hx).
  intros Hin%trim_elem_of.
  pose proof (split_no_sep_inside 10 raw) as Hs.
  rewrite Forall_forall in Hs. by apply (Hs x Hx).
Qed.

(** The lines of a text made of tidy, newline-free lines are those
    lines. *)
Lemma lines_of_join (ls : list JsString) :
  ls ≠ [] → Forall single_line ls →
  filter (λ line, (0 < length line)%nat) (trim <$> split 10 (join 10 ls)) = ls.
Proof.
  intros Hne Hls.
  rewrite split_join; [|done|by eapply Forall_impl; [exact Hls|]; intros ? []].
  clear Hne. induction Hls as [|l ls [Hl _] _ IH]; [done|].
  rewrite fmap_cons, (tidy_trim l Hl).
  rewrite filter_cons_True, IH; [done|].
  destruct Hl as [Hne _]. destruct l; [done|simpl; lia].
Qed.

Lemma readSource_images env path ft raw imgs :
  Parser.readSource env path ft = inr (raw, imgs) →
  Forall (λ v, v ≠ [] ∧ 34%N ∉ v) imgs.
Proof.
  unfold Parser.readSource.
  destruct (_ || _).
  { destruct (Parser.readFileSync env path); [done|]. by intros [= <- <-]. }
  destruct (bool_decide _); [|done].
  destruct (Parser.import_mammoth env) as [|m]; [done|].
  destruct (Parser.convertToHtml m path) as [|html]; [done|].
  destruct (Parser.extractRawText m path); [done|].
  intros [= <- <-]. apply (exec_all_imgRegex_entries (S (length html)) 0 html).
Qed.

(** What a successful parse is made of. *)
Lemma parseDocument_inr env path ft d :
  Parser.parseDocument env path ft = inr d →
  ∃ raw imgs ti,
    Parser.readSource env path ft = inr (raw, imgs) ∧
    let lines := filter (λ line, (0 < length line)%nat)
                   (trim <$> split 10 raw) in
    lines !! ti = Some (Parser.title d) ∧
    Parser.content d = join 10 (drop (S ti) lines) ∧
    trim (Parser.content d) ≠ [] ∧
    Parser.embeddedImages d
      = (if (0 <? length imgs)%nat then Some imgs else None).
Proof.
  unfold Parser.parseDocument.
  destruct (negb _); [done|].
  destruct (Parser.readSource env path ft) as [t|[raw imgs]]; [done|].
  destruct (filter _ _) as [|firstLine lines] eqn:Hlines; [done|].
  intros H. exists raw, imgs.
  destruct (String_match Parser.IMAGE_REGEX firstLine) as [m|].
  - exists 1%nat. rewrite Hlines.
    destruct ((firstLine :: lines) !! 1%nat) as [t|] eqn:Ht; [|done].
    destruct (negb (truthy (trim _))) eqn:Hc; [done|].
    injection H as <-. simpl in *. split_and!; try done.
    intros Hnil. by rewrite Hnil in Hc.
  - destruct (RegExp_test Parser.URL_REGEX firstLine).
    + exists 1%nat. rewrite Hlines.
      destruct ((firstLine :: lines) !! 1%nat) as [t|] eqn:Ht; [|done].
      destruct (negb (truthy (trim _))) eqn:Hc; [done|].
      injection H as <-. simpl in *. split_and!; try done.
      intros Hnil. by rewrite Hnil in Hc.
    + exists 0%nat. rewrite Hlines.
      destruct ((firstLine :: lines) !! 0%nat) as [t|] eqn:Ht; [|done].
      destruct (negb (truthy (trim _))) eqn:Hc; [done|].
      injection H as <-. simpl in *. split_and!; try done.
      intros Hnil. by rewrite Hnil in Hc.
Qed.

Lemma parsed_fields env path ft d :
  Parser.parseDocument env path ft = inr d →
  single_line (Parser.title d) ∧
  tidy (Parser.content d) ∧
  Forall single_line (split 10 (Parser.content d)).
Proof.
  intros (raw & imgs & ti & _ & Ht & Hc & Hne & _)%parseDocument_inr.
  simpl in *. pose proof (lines_single raw) as Hl.
  set (lines := filter _ _) in *.
  split; [exact (Forall_lookup_1 _ _ _ _ Hl Ht)|].
  assert (Forall single_line (drop (S ti) lines)) as Hd by (by apply Forall_drop).
  assert (drop (S ti) lines ≠ []) as Hnn.
  { intros E. rewrite Hc, E in Hne. done. }
  rewrite Hc. split.
  - apply join_tidy; [done|].
    eapply Forall_impl; [exact Hd|]. by intros ? [].
  - rewrite split_join; [done..|].
    eapply Forall_impl; [exact Hd|]. by intros ? [].
Qed.

(** X17. Whatever [parseDocument] returns is well formed.  The title is one
    line, not empty, with no white space around it; the content is not
    empty, has no white space around it, and each of its lines is such
    a line, so it has no blank line; [embeddedImages], when present, is
    not empty and each entry is a non-empty string without a double
    quote. *)
Theorem parseDocument_returns_well_formed env path ft d :
  Parser.parseDocument env path ft = inr d →
  single_line (Parser.title d) ∧
  tidy (Parser.content d) ∧
  Forall single_line (split 10 (Parser.content d)) ∧
  ∀ imgs, Parser.embeddedImages d = Some imgs →
    imgs ≠ [] ∧ Forall (λ v, v ≠ [] ∧ 34%N ∉ v) imgs.
Proof.
  intros H. destruct (parsed_fields _ _ _ _ H) as (? & ? & ?).
  split_and!; try done.
  apply parseDocument_inr in H as (raw & imgs & ti & Hr & _ & _ & _ & He).
  intros imgs' Hi. rewrite He in Hi.
  destruct (0 <? length imgs)%nat eqn:Hlen; [|done].
  injection Hi as <-. split.
  - intros ->. done.
  - by eapply readSource_images.
Qed.

Lemma parseDocument_returns_well_formed_witness :
  single_line (Parser.title report_parsed) ∧
  tidy (Parser.content report_parsed) ∧
  Forall single_line (split 10 (Parser.content report_parsed)) ∧
  ∀ imgs, Parser.embeddedImages report_parsed = Some imgs →
    imgs ≠ [] ∧ Forall (λ v, v ≠ [] ∧ 34%N ∉ v) imgs.
Proof.
  apply (parseDocument_returns_well_formed
           report_env (js "report.docx") (js "docx") report_parsed).
  vm_compute. reflexivity.
Defined.



Lemma readSource_text env path ft raw :
  ft ∈ [js "txt"; js "md"] →
  Parser.readFileSync env path = inr raw →
  Parser.readSource env path ft = inr (raw, []).
Proof.
  intros Hft Hread. unfold Parser.readSource. rewrite Hread.
  apply elem_of_cons in Hft as [->|Hft]; [done|].
  apply list_elem_of_singleton in Hft as ->. done.
Qed.

Lemma supported_text ft :
  ft ∈ [js "txt"; js "md"] →
  negb (bool_decide (ft ∈ [js "txt"; js "md"; js "docx"])) = false.
Proof.
  intros Hft. rewrite bool_decide_eq_true_2; [done|].
  apply elem_of_cons in Hft as [->|Hft]; [left|].
  apply list_elem_of_singleton in Hft as ->. right. left.
Qed.

(** X19. A text file is reported as empty exactly when it holds nothing but
    white space, line breaks included. *)
Theorem parseDocument_empty_iff_blank env path ft raw :
  ft ∈ [js "txt"; js "md"] →
  Parser.readFileSync env path = inr raw →
  Parser.parseDocument env path ft
    = inl (Error (js "Document is empty. Please provide a document with at least a title and content."))
  ↔ Forall (λ c, is_whitespace c = true) raw.
Proof.
  intros Hft Hread. unfold Parser.parseDocument.
  rewrite (supported_text ft Hft), (readSource_text _ _ _ _ Hft Hread).
  rewrite <- lines_nil_iff.
  destruct (filter _ _) as [|firstLine lines]; [done|].
  split; [|done]. intros H. exfalso.
  destruct (String_match _ _) as [m|]; [|destruct (RegExp_test _ _)];
    destruct (_ !! _); try (by vm_compute in H);
    destruct (negb _); by vm_compute in H.
Qed.

Lemma parseDocument_empty_iff_blank_witness :
  Parser.parseDocument
    (text_env ([10; 10]%N ++ js "   " ++ [10; 9; 10]%N ++ js "   "))
    (js "whitespace-only.txt") (js "txt")
    = inl (Error (js "Document is empty. Please provide a document with at least a title and content."))
  ↔ Forall (λ c, is_whitespace c = true)
      ([10; 10]%N ++ js "   " ++ [10; 9; 10]%N ++ js "   ").
Proof.
  apply (parseDocument_empty_iff_blank
           (text_env ([10; 10]%N ++ js "   " ++ [10; 9; 10]%N ++ js "   "))
           (js "whitespace-only.txt") (js "txt")).
  - decide_closed.
  - reflexivity.
Defined.

Lemma join_content_accepted (l : JsString) (ls : list JsString) :
  Forall single_line (l :: ls) →
  negb (truthy (trim (join 10 (l :: ls)))) = false.
Proof.
  intros H.
  assert (tidy (join 10 (l :: ls))) as Ht.
  { apply join_tidy; [done|]. eapply Forall_impl; [exact H|]. by intros ? []. }
  rewrite (tidy_trim _ Ht). destruct Ht as [Hne _].
  by destruct (join 10 (l :: ls)).
Qed.

(** X20. A text of a title line followed by content lines, all of them tidy,
    whose first line is neither an image line nor a URL, parses into
    that title and those lines, joined by newlines, with no image. *)
Theorem parseDocument_title_then_content env path ft t l ls :
  ft ∈ [js "txt"; js "md"] →
  Parser.readFileSync env path = inr (join 10 (t :: l :: ls)) →
  Forall single_line (t :: l :: ls) →
  String_match Parser.IMAGE_REGEX t = None →
  RegExp_test Parser.URL_REGEX t = false →
  Parser.parseDocument env path ft
    = inr {| Parser.title := t;
             Parser.content := join 10 (l :: ls);
             Parser.imageReference := None;
             Parser.embeddedImages := None |}.
Proof.
  intros Hft Hread Hls Himg Hurl. unfold Parser.parseDocument.
  rewrite (supported_text ft Hft), (readSource_text _ _ _ _ Hft Hread).
  rewrite lines_of_join by done.
  rewrite Himg, Hurl.
  change ((t :: l :: ls) !! 0%nat) with (Some t).
  change (drop 1 (t :: l :: ls)) with (l :: ls).
  rewrite join_content_accepted; [done|]. by inv Hls.
Qed.

Lemma parseDocument_title_then_content_witness :
  Parser.parseDocument
    (text_env (join 10 [js "Title"; js "Paragraph 1"; js "Paragraph 2"]))
    (js "multiline.txt") (js "txt")
  = inr {| Parser.title := js "Title";
           Parser.content := join 10 [js "Paragraph 1"; js "Paragraph 2"];
           Parser.imageReference := None;
           Parser.embeddedImages := None |}.
Proof.
  apply (parseDocument_title_then_content
           (text_env (join 10 [js "Title"; js "Paragraph 1"; js "Paragraph 2"]))
           (js "multiline.txt") (js "txt")
           (js "Title") (js "Paragraph 1") [js "Paragraph 2"]).
  - decide_closed.
  - reflexivity.
  - repeat constructor; try discriminate;
      try (by intros c [= <-]); decide_closed.
  - reflexivity.
  - reflexivity.
Defined.

Lemma image_line_single (alt url : JsString) :
  Forall (λ c, c ∉ LineTerminators) alt →
  Forall (λ c, c ∉ LineTerminators) url →
  single_line (js "![" ++ alt ++ js "](" ++ url ++ js ")").
Proof.
  intros Halt Hurl.
  change (js "![") with [33; 91]%N. change (js "](") with [93; 40]%N.
  change (js ")") with [41%N]. split; [split_and!|].
  - done.
  - by intros c [= <-].
  - intros c. rewrite !app_assoc, last_snoc. by intros [= <-].
  - assert (∀ l : JsString, Forall (λ c, c ∉ LineTerminators) l → 10%N ∉ l)
      as Hno.
    { intros l Hl Hin. rewrite Forall_forall in Hl. apply (Hl _ Hin).
      left. }
    rewrite !not_elem_of_app, !not_elem_of_cons.
    split_and!; try done; try apply not_elem_of_nil; by apply Hno.
Qed.

(** X21. A text that opens with a Markdown image line [![alt](url)], then a
    title and content lines, parses into that title and content with
    [url] as the image reference. *)
Theorem parseDocument_image_then_title env path ft alt url t l ls :
  ft ∈ [js "txt"; js "md"] →
  Parser.readFileSync env path
    = inr (join 10 ((js "![" ++ alt ++ js "](" ++ url ++ js ")")
                      :: t :: l :: ls)) →
  93%N ∉ alt →
  Forall (λ c, c ∉ LineTerminators) alt →
  Forall (λ c, c ∉ LineTerminators) url →
  Forall single_line (t :: l :: ls) →
  Parser.parseDocument env path ft
    = inr {| Parser.title := t;
             Parser.content := join 10 (l :: ls);
             Parser.imageReference := Some url;
             Parser.embeddedImages := None |}.
Proof.
  intros Hft Hread Hb Halt Hurl Hls. unfold Parser.parseDocument.
  rewrite (supported_text ft Hft), (readSource_text _ _ _ _ Hft Hread).
  rewrite lines_of_join;
    [|done|constructor; [by apply image_line_single|done]].
  rewrite match_image_line_complete by done.
  change ((?x :: t :: l :: ls) !! 1%nat) with (Some t).
  change (drop 2 (?x :: t :: l :: ls)) with (l :: ls).
  rewrite join_content_accepted; [done|]. by inv Hls.
Qed.

Lemma parseDocument_image_then_title_witness :
  Parser.parseDocument
    (text_env (join 10 [js "![" ++ js "Article Header" ++ js "]("
                          ++ js "https://example.com/header.png" ++ js ")";
                        js "Document Title"; js "Content paragraph here."]))
    (js "with-md-image.txt") (js "txt")
  = inr {| Parser.title := js "Document Title";
           Parser.content := join 10 [js "Content paragraph here."];
           Parser.imageReference := Some (js "https://example.com/header.png");
           Parser.embeddedImages := None |}.
Proof.
  apply (parseDocument_image_then_title
           (text_env (join 10 [js "![" ++ js "Article Header" ++ js "]("
                          ++ js "https://example.com/header.png" ++ js ")";
                        js "Document Title"; js "Content paragraph here."]))
           (js "with-md-image.txt") (js "txt")
           (js "Article Header") (js "https://example.com/header.png")
           (js "Document Title") (js "Content paragraph here.") []).
  - decide_closed.
  - reflexivity.
  - decide_closed.
  - decide_closed.
  - decide_closed.
  - repeat constructor; try discriminate;
      try (by intros c [= <-]); decide_closed.
Defined.

(** X22. The loop that collects the [src] of the embedded images ends: each
    match uses up at least one character of the HTML, so the fuel the
    parser is given, the length of the HTML plus one, is never
    exhausted, and any larger fuel yields the same list. *)
Theorem embedded_image_loop_terminates (html : JsString) (fuel : nat) :
  (length html < fuel)%nat →
  exec_all fuel Parser.imgRegex 0 html
  = exec_all (S (length html)) Parser.imgRegex 0 html.
Proof. intros H. apply exec_all_imgRegex_fuel; lia. Qed.

Lemma embedded_image_loop_terminates_witness :
  (length gallery_html < 1000)%nat ∧
  exec_all 1000 Parser.imgRegex 0 gallery_html
  = exec_all (S (length gallery_html)) Parser.imgRegex 0 gallery_html ∧
  exec_all (S (length gallery_html)) Parser.imgRegex 0 gallery_html
  = [js "a.png"; js "b.jpg"].
Proof.
  split; [vm_compute; lia|]. split.
  - apply (embedded_image_loop_terminates gallery_html 1000).
    vm_compute. lia.
  - vm_compute. reflexivity.
Defined.

(** * The routes *)

(** ** Tokens of the email links *)

Lemma pretty_N_go_chars (P : Ascii.ascii → Prop) :
  (∀ d, (d < 10)%N → P (pretty_N_char d)) →
  ∀ x s, Forall P (String.list_ascii_of_string s) →
         Forall P (String.list_ascii_of_string (pretty_N_go x s)).
Proof.
  intros HP x. induction (N.lt_wf_0 x) as [x _ IH]; intros s Hs.
  assert (x = 0 ∨ 0 < x)%N as [->|Hx] by lia; [by rewrite pretty_N_go_0|].
  rewrite pretty_N_go_step by done. apply IH; [by apply N.div_lt|].
  simpl. constructor; [|done]. apply HP. by apply N.mod_lt.
Qed.

Lemma pretty_N_chars (P : Ascii.ascii → Prop) (x : N) :
  (∀ d, (d < 10)%N → P (pretty_N_char d)) →
  Forall P (String.list_ascii_of_string (pretty x)).
Proof.
  intros HP. unfold pretty, pretty_N. destruct (decide (x = 0%N)).
  - repeat constructor. apply (HP 0%N). lia.
  - apply pretty_N_go_chars; [done|constructor].
Qed.

Lemma digit_not_colon d :
  (d < 10)%N → Ascii.N_of_ascii (pretty_N_char d) ≠ 58%N.
Proof.
  intros Hd.
  assert (d = 0 ∨ d = 1 ∨ d = 2 ∨ d = 3 ∨ d = 4 ∨ d = 5 ∨ d = 6 ∨ d = 7
          ∨ d = 8 ∨ d = 9)%N as H by lia.
  repeat (destruct H as [->|H]; [by vm_compute|]). subst. by vm_compute.
Qed.

(** The decimal of an integer holds no colon. *)
Lemma Number_toString_no_colon (n : Z) : 58%N ∉ Number_toString n.
Proof.
  unfold Number_toString, js. intros (a & Ha & Hin)%list_elem_of_fmap.
  assert (∀ x : N, Forall (λ a, Ascii.N_of_ascii a ≠ 58%N)
                     (String.list_ascii_of_string (pretty x))) as HN
    by (intros x; apply pretty_N_chars, digit_not_colon).
  assert (Forall (λ a, Ascii.N_of_ascii a ≠ 58%N)
            (String.list_ascii_of_string (pretty n))) as H.
  { unfold pretty, pretty_Z. destruct n as [|p|p].
    - by repeat constructor.
    - apply (HN (N.pos p)).
    - simpl. constructor; [by vm_compute|]. apply (HN (N.pos p)). }
  rewrite Forall_forall in H. by apply (H a Hin).
Qed.

Lemma Action_value_no_colon a : 58%N ∉ Server.Action_value a.
Proof. destruct a; decide_closed. Qed.

Lemma split_token (i a t g : JsString) :
  58%N ∉ i → 58%N ∉ a → 58%N ∉ t → 58%N ∉ g →
  split 58 ((i ++ js ":" ++ a ++ js ":" ++ t) ++ js ":" ++ g) = [i; a; t; g].
Proof.
  intros Hi Ha Ht Hg. change (js ":") with [58%N].
  rewrite <- !app_assoc. simpl.
  rewrite (split_app_sep 58 i) by done.
  rewrite (split_app_sep 58 a) by done.
  rewrite (split_app_sep 58 t) by done.
  by rewrite split_no_sep.
Qed.

Lemma verify_generated crypto env (i : JsString) (a : Server.Action) (n : Z) :
  58%N ∉ i →
  codec_ok crypto env
    (i ++ js ":" ++ Server.Action_value a ++ js ":" ++ Number_toString n) →
  Server.verifyEmailToken crypto env
    (Server.to_base64url crypto
       ((i ++ js ":" ++ Server.Action_value a ++ js ":" ++ Number_toString n)
          ++ js ":"
          ++ Server.hmac_sha256_hex crypto (Server.EMAIL_SECRET env)
               (i ++ js ":" ++ Server.Action_value a ++ js ":"
                  ++ Number_toString n)))
  = Some (i, a).
Proof.
  intros Hi [Hh Hb]. unfold Server.verifyEmailToken.
  rewrite Hb.
  rewrite split_token;
    [|done|apply Action_value_no_colon|apply Number_toString_no_colon|apply Hh].
  rewrite bool_decide_eq_false_2 by (by intros []).
  by destruct a.
Qed.

(** X23. A token made for a submission and an action verifies as that
    submission and that action, whenever it is presented: provided the
    id holds no colon and, for the string the token signs, the digest
    holds no colon and the base64url decoding undoes the encoding.
    Making a token writes nothing. *)
Theorem generated_token_verifies crypto env elapsed
    (i : JsString) (a : Server.Action) (w : World) :
  58%N ∉ i →
  codec_ok crypto env
    (i ++ js ":" ++ Server.Action_value a ++ js ":"
       ++ Number_toString (clock w + Z.of_N elapsed)) →
  ∃ token w',
    Server.generateEmailToken crypto env elapsed i a w = (Normal token, w') ∧
    file w' = file w ∧
    Server.verifyEmailToken crypto env token = Some (i, a).
Proof.
  intros Hi Hc. eexists _, _. split; [reflexivity|]. split; [done|].
  by apply verify_generated.
Qed.

Lemma generated_token_verifies_witness :
  ∃ token w',
    Server.generateEmailToken toy_crypto no_env 5 id_t0 Server.approve
      w_created = (Normal token, w') ∧
    file w' = file w_created ∧
    Server.verifyEmailToken toy_crypto no_env token
      = Some (id_t0, Server.approve).
Proof.
  apply (generated_token_verifies toy_crypto no_env 5 id_t0
           Server.approve w_created).
  - decide_closed.
  - split; [decide_closed|reflexivity].
Defined.

(** X24. Only signed tokens verify: when [verifyEmailToken] accepts a token,
    the token decodes to an id, the name of the action returned and a
    third field, none of them holding a colon, followed by the digest
    of exactly these three fields under the email secret. *)
Theorem verified_token_is_signed crypto env token
    (i : JsString) (a : Server.Action) :
  Server.verifyEmailToken crypto env token = Some (i, a) →
  ∃ t,
    (Server.from_base64url crypto token
     = (i ++ js ":" ++ Server.Action_value a ++ js ":" ++ t) ++ js ":"
         ++ Server.hmac_sha256_hex crypto (Server.EMAIL_SECRET env)
              (i ++ js ":" ++ Server.Action_value a ++ js ":" ++ t)) ∧
    (58%N ∉ i) ∧ (58%N ∉ t).
Proof.
  unfold Server.verifyEmailToken.
  pose proof (join_split 58 (Server.from_base64url crypto token)) as Hj.
  pose proof (split_no_sep_inside 58 (Server.from_base64url crypto token)) as Hn.
  destruct (split 58 _) as [|i' [|a' [|t [|g [|??]]]]]; try done.
  apply Forall_cons in Hn as [Hi Hn]. apply Forall_cons in Hn as [_ Hn].
  apply Forall_cons in Hn as [Ht _].
  destruct (bool_decide_reflect (g ≠ Server.hmac_sha256_hex crypto
    (Server.EMAIL_SECRET env) (i' ++ js ":" ++ a' ++ js ":" ++ t)))
    as [|Hg%dec_stable]; [done|].
  intros H. exists t. rewrite <- Hj.
  assert (a' = Server.Action_value a ∧ i' = i) as [-> ->].
  { repeat case_bool_decide; simplify_eq; done. }
  split_and!; [|done..].
  rewrite Hg. change (js ":") with [58%N].
  repeat (progress (rewrite <- ?app_assoc; simpl)). done.
Qed.

Lemma verified_token_is_signed_witness :
  ∃ t,
    (Server.from_base64url toy_crypto
       (id_t0 ++ js ":reject:1768730400009:" ++ js "5ca1ab1e")
     = (id_t0 ++ js ":" ++ Server.Action_value Server.reject ++ js ":" ++ t)
         ++ js ":"
         ++ Server.hmac_sha256_hex toy_crypto (Server.EMAIL_SECRET no_env)
              (id_t0 ++ js ":" ++ Server.Action_value Server.reject
                 ++ js ":" ++ t)) ∧
    (58%N ∉ id_t0) ∧ (58%N ∉ t).
Proof.
  apply (verified_token_is_signed toy_crypto no_env
           (id_t0 ++ js ":reject:1768730400009:" ++ js "5ca1ab1e")
           id_t0 Server.reject).
  reflexivity.
Defined.

(** ** The email links *)

Lemma status_not_pending (s : Submission) :
  bool_decide (SubmissionStatus_value (status s) ≠ js "pending")
  = bool_decide (status s ≠ Pending).
Proof.
  apply bool_decide_ext.
  by rewrite <- (SubmissionStatus_value_eq (status s) Pending).
Qed.

Lemma email_link_on_processed link crypto env e1 e2 token i s w :
  token ≠ [] →
  Server.verifyEmailToken crypto env token = Some (i, link) →
  Storage.getSubmission i w = (Normal (Some s), w) →
  status s ≠ Pending →
  Server.email_link link crypto env e1 e2 (Some token) w
    = (Normal ({| Server.statusCode := 200;
                  Server.body := Server.Html (Server.AlreadyProcessed s) |},
               []), w).
Proof.
  intros Ht Hv Hg Hs.
  unfold Server.email_link, Server.try_catch, bind,
    WorkflowManager.getSubmission.
  destruct token as [|c token]; [done|].
  change (negb (truthy (c :: token))) with false. cbv beta iota.
  rewrite Hv, bool_decide_eq_false_2 by (by intros []). cbv beta iota.
  rewrite Hg. cbv beta iota.
  rewrite status_not_pending, bool_decide_eq_true_2 by done.
  done.
Qed.

(** X25. An email link leaves a submission that is no longer pending as it
    is: with a token that verifies for the link, the answer is the
    already-processed page for the stored record, no mail is sent and
    nothing is written, whichever way the submission was decided. *)
Theorem email_link_leaves_processed_alone
    link crypto env e1 e2 token i s w :
  token ≠ [] →
  Server.verifyEmailToken crypto env token = Some (i, link) →
  Storage.getSubmission i w = (Normal (Some s), w) →
  status s ≠ Pending →
  Server.email_link link crypto env e1 e2 (Some token) w
    = (Normal ({| Server.statusCode := 200;
                  Server.body := Server.Html (Server.AlreadyProcessed s) |},
               []), w).
Proof. apply email_link_on_processed. Qed.

Lemma email_link_leaves_processed_alone_witness :
  Server.email_link Server.reject toy_crypto no_env 3 4
    (Some (id_t0 ++ js ":reject:1768730400009:" ++ js "5ca1ab1e")) w_approved
  = (Normal ({| Server.statusCode := 200;
                Server.body :=
                  Server.Html (Server.AlreadyProcessed approved_at_25) |},
             []), w_approved).
Proof.
  apply (email_link_leaves_processed_alone Server.reject toy_crypto no_env 3 4
           (id_t0 ++ js ":reject:1768730400009:" ++ js "5ca1ab1e")
           id_t0 approved_at_25 w_approved).
  - discriminate.
  - reflexivity.
  - reflexivity.
  - discriminate.
Defined.

(** X26. An email link takes effect once.  On a pending submission a token
    that verifies for the link applies the transition, stamped with the
    time of the call; presented again, at any later time, the same
    token gets the already-processed page and writes nothing, so the
    status and [updatedAt] of the first click stay. *)
Theorem email_link_takes_effect_once
    link crypto env e1 e2 token i s w :
  token ≠ [] →
  Server.verifyEmailToken crypto env token = Some (i, link) →
  Storage.getSubmission i w = (Normal (Some s), w) →
  status s = Pending →
  ∃ r w1,
    Server.email_link link crypto env e1 e2 (Some token) w
      = (Normal ({| Server.statusCode := 200;
                    Server.body :=
                      Server.Html
                        (Server.ActionCompleted link r
                           (clock w + Z.of_N e1 + Z.of_N e2)) |},
                 confirmation link env r), w1) ∧
    r = transitioned s (decided link) (ISO (clock w + Z.of_N e1)) ∧
    Storage.getSubmission i w1 = (Normal (Some r), w1) ∧
    ∀ e3 e4,
      Server.email_link link crypto env e3 e4 (Some token) w1
        = (Normal ({| Server.statusCode := 200;
                      Server.body :=
                        Server.Html (Server.AlreadyProcessed r) |},
                   []), w1).
Proof.
  intros Ht Hv Hg Hs.
  pose proof Hg as [j Hf]%getSubmission_found.
  set (r := transitioned s (decided link) (ISO (clock w + Z.of_N e1))).
  set (w1 := {| file := <[j := r]> (file w);
                clock := clock w + Z.of_N e1 + Z.of_N e2 |}).
  assert (Storage.getSubmission i w1 = (Normal (Some r), w1)) as Hg1.
  { rewrite getSubmission_eq. simpl.
    erewrite first_with_id_insert; [done|exact Hf|].
    simpl. by apply list_find_Some in Hf as (_ & ? & _). }
  exists r, w1.
  split_and!; [|done|done|].
  - unfold Server.email_link, Server.try_catch, bind,
      WorkflowManager.getSubmission.
    destruct token as [|c token]; [done|].
    change (negb (truthy (c :: token))) with false. cbv beta iota.
    rewrite Hv, bool_decide_eq_false_2 by (by intros []). cbv beta iota.
    rewrite Hg. cbv beta iota.
    rewrite status_not_pending, bool_decide_eq_false_2 by (by intros []).
    cbv beta iota.
    destruct link;
      unfold WorkflowManager.approveSubmission,
        WorkflowManager.rejectSubmission;
      rewrite (updateSubmissionStatus_found _ _ _ _ _ _ Hf); reflexivity.
  - intros e3 e4. apply (email_link_on_processed _ _ _ _ _ _ i); [done..|].
    by destruct link.
Qed.

Lemma email_link_takes_effect_once_witness :
  ∃ r w1,
    Server.email_link Server.approve toy_crypto mail_env 3 4
      (Some (id_t0 ++ js ":approve:1768730400009:" ++ js "5ca1ab1e"))
      w_created
      = (Normal ({| Server.statusCode := 200;
                    Server.body :=
                      Server.Html
                        (Server.ActionCompleted Server.approve r
                           (clock w_created + Z.of_N 3 + Z.of_N 4)) |},
                 confirmation Server.approve mail_env r), w1) ∧
    r = transitioned created_at_t0 (decided Server.approve)
          (ISO (clock w_created + Z.of_N 3)) ∧
    Storage.getSubmission id_t0 w1 = (Normal (Some r), w1) ∧
    ∀ e3 e4,
      Server.email_link Server.approve toy_crypto mail_env e3 e4
        (Some (id_t0 ++ js ":approve:1768730400009:" ++ js "5ca1ab1e")) w1
        = (Normal ({| Server.statusCode := 200;
                      Server.body :=
                        Server.Html (Server.AlreadyProcessed r) |},
                   []), w1).
Proof.
  apply (email_link_takes_effect_once Server.approve toy_crypto mail_env 3 4
           (id_t0 ++ js ":approve:1768730400009:" ++ js "5ca1ab1e")
           id_t0 created_at_t0 w_created).
  - discriminate.
  - reflexivity.
  - reflexivity.
  - reflexivity.
Defined.

(** ** The routes of the dashboard *)

(** X27. [GET /api/approve] and [GET /api/reject].  A caller who is not a
    manager gets 403 and nothing is written; a manager naming an id the
    store does not hold gets 404 and nothing is written; a manager
    naming a stored submission gets 200 with the record in its new
    state, which is then the stored one, whatever its state was, and
    the confirmation is handed to the mail service when [FROM_EMAIL] is
    set.  The 400 of the [catch] block is never the answer for a
    non-empty id. *)
Theorem decide_route_answers link env user elapsed (i : JsString) w :
  i ≠ [] →
  (Server.role <$> user ≠ Some (js "manager") →
   Server.decide_route link env user elapsed (Some i) w
     = (Normal ({| Server.statusCode := 403;
                   Server.body :=
                     Server.ErrorJson
                       (js "Access denied. Manager role required.") |},
                []), w)) ∧
  (Server.role <$> user = Some (js "manager") →
   (∀ s, s ∈ file w → id s ≠ i) →
   Server.decide_route link env user elapsed (Some i) w
     = (Normal ({| Server.statusCode := 404;
                   Server.body := Server.ErrorJson (js "Submission not found") |},
                []), w)) ∧
  (Server.role <$> user = Some (js "manager") →
   ∀ s, Storage.getSubmission i w = (Normal (Some s), w) →
   ∃ w',
     Server.decide_route link env user elapsed (Some i) w
       = (Normal
            ({| Server.statusCode := 200;
                Server.body :=
                  Server.SuccessData
                    match link with
                    | Server.approve => js "Submission approved successfully"
                    | Server.reject => js "Submission rejected successfully"
                    end
                    (transitioned s (decided link)
                       (ISO (clock w + Z.of_N elapsed))) |},
             confirmation link env
               (transitioned s (decided link)
                  (ISO (clock w + Z.of_N elapsed)))), w') ∧
     Storage.getSubmission i w'
       = (Normal (Some (transitioned s (decided link)
                          (ISO (clock w + Z.of_N elapsed)))), w')).
Proof.
  intros Hi. unfold Server.decide_route, Server.authenticateManager.
  split_and!.
  - intros Hrole. by rewrite bool_decide_eq_true_2.
  - intros Hrole Habs. rewrite bool_decide_eq_false_2 by (by intros []).
    unfold Server.guarded, Server.try_catch, bind,
      WorkflowManager.getSubmission.
    destruct i as [|c i]; [done|].
    change (negb (Server.given (Some (c :: i)))) with false. cbv beta iota.
    simpl default.
    by rewrite getSubmission_eq, (first_with_id_absent _ _ Habs).
  - intros Hrole s Hg. rewrite bool_decide_eq_false_2 by (by intros []).
    pose proof Hg as [j Hf]%getSubmission_found.
    exists {| file := <[j := transitioned s (decided link)
                             (ISO (clock w + Z.of_N elapsed))]> (file w);
              clock := clock w + Z.of_N elapsed |}.
    unfold Server.guarded, Server.try_catch, bind,
      WorkflowManager.getSubmission.
    destruct i as [|c i]; [done|].
    change (negb (Server.given (Some (c :: i)))) with false. cbv beta iota.
    simpl default. rewrite Hg. cbv beta iota.
    split.
    + destruct link;
        unfold WorkflowManager.approveSubmission,
          WorkflowManager.rejectSubmission;
        rewrite (updateSubmissionStatus_found _ _ _ _ _ _ Hf); reflexivity.
    + rewrite getSubmission_eq. simpl.
      erewrite first_with_id_insert; [done|exact Hf|].
      simpl. by apply list_find_Some in Hf as (_ & ? & _).
Qed.

Lemma decide_route_answers_witness :
  ∃ w',
    Server.decide_route Server.reject mail_env (Some a_manager) 40
      (Some id_t0) w_approved
      = (Normal
           ({| Server.statusCode := 200;
               Server.body :=
                 Server.SuccessData (js "Submission rejected successfully")
                   (transitioned approved_at_25 (decided Server.reject)
                      (ISO (clock w_approved + Z.of_N 40))) |},
            confirmation Server.reject mail_env
              (transitioned approved_at_25 (decided Server.reject)
                 (ISO (clock w_approved + Z.of_N 40)))), w') ∧
    Storage.getSubmission id_t0 w'
      = (Normal (Some (transitioned approved_at_25 (decided Server.reject)
                         (ISO (clock w_approved + Z.of_N 40)))), w').
Proof.
  refine (proj2 (proj2 (decide_route_answers Server.reject mail_env
            (Some a_manager) 40 id_t0 w_approved _)) _ approved_at_25 _).
  - discriminate.
  - reflexivity.
  - reflexivity.
Defined.

(** X28. [DELETE /api/submissions/:id].  A writer cannot delete a submission
    of someone else: the answer is 403 and nothing is written.  Anyone
    else, and the writer of the submission, gets 200 and no record with
    that id is left, the other ids being answered as before.  An id the
    store does not hold gets 404. *)
Theorem delete_submission_answers user (i : JsString) w :
  (∀ s, Storage.getSubmission i w = (Normal (Some s), w) →
   Server.role <$> user = Some (js "writer") →
   writerEmail s ≠ Server.email <$> user →
   Server.delete_submission user i w
     = (Normal ({| Server.statusCode := 403;
                   Server.body :=
                     Server.ErrorJson
                       (js "Access denied. You can only delete your own submissions.") |},
                []), w)) ∧
  (∀ s, Storage.getSubmission i w = (Normal (Some s), w) →
   Server.role <$> user ≠ Some (js "writer")
   ∨ writerEmail s = Server.email <$> user →
   ∃ w',
     Server.delete_submission user i w
       = (Normal ({| Server.statusCode := 200;
                     Server.body :=
                       Server.SuccessMessage
                         (js "Submission deleted successfully") |},
                  []), w') ∧
     (∀ s', s' ∈ file w' → id s' ≠ i) ∧
     ∀ i', i' ≠ i →
       (Storage.getSubmission i' w').1 = (Storage.getSubmission i' w).1) ∧
  ((∀ s, s ∈ file w → id s ≠ i) →
   Server.delete_submission user i w
     = (Normal ({| Server.statusCode := 404;
                   Server.body := Server.ErrorJson (js "Submission not found") |},
                []), w)).
Proof.
  unfold Server.delete_submission, Server.try_catch, bind,
    WorkflowManager.getSubmission.
  split_and!.
  - intros s Hg Hrole Hown. rewrite Hg. cbv beta iota.
    by rewrite !bool_decide_eq_true_2.
  - intros s Hg Hok. rewrite Hg. cbv beta iota.
    assert (bool_decide (Server.role <$> user = Some (js "writer"))
            && bool_decide (writerEmail s ≠ Server.email <$> user) = false)
      as ->.
    { destruct Hok as [Hr|Ho].
      - by rewrite (bool_decide_eq_false_2 _ Hr).
      - rewrite (bool_decide_eq_false_2 (_ ≠ _)) by (by intros []).
        apply andb_false_r. }
    cbv beta iota.
    pose proof Hg as [j Hf]%getSubmission_found.
    apply list_find_Some in Hf as (Hj & Hid & _).
    assert (s ∈ file w) as Hin by (by eapply list_elem_of_lookup_2).
    exists {| file := filter (λ s, id s ≠ i) (file w); clock := clock w |}.
    split_and!.
    + unfold WorkflowManager.deleteSubmission, Storage.deleteSubmission, bind.
      simpl.
      assert (length (filter (λ s, id s ≠ i) (file w)) < length (file w))%nat
        as Hlt by (eapply length_filter_lt; [exact Hin|]; by intros []).
      apply Nat.ltb_lt in Hlt. by rewrite Hlt.
    + by intros s' [? _]%list_elem_of_filter.
    + intros i' Hne. rewrite !getSubmission_eq. simpl.
      by rewrite first_with_id_filter_other.
  - intros Habs.
    by rewrite getSubmission_eq, (first_with_id_absent _ _ Habs).
Qed.

Lemma delete_submission_answers_witness :
  Server.delete_submission (Some a_writer) id_t0 w_approved
    = (Normal ({| Server.statusCode := 403;
                  Server.body :=
                    Server.ErrorJson
                      (js "Access denied. You can only delete your own submissions.") |},
               []), w_approved).
Proof.
  refine (proj1 (delete_submission_answers (Some a_writer) id_t0 w_approved)
            approved_at_25 _ _ _).
  - reflexivity.
  - reflexivity.
  - discriminate.
Defined.

(** X29. [GET /api/submissions] for a writer, with or without a status to
    filter on.  The answer is 200 and lists exactly the stored
    submissions of that writer that have the status asked for, newest
    first; [count] and [counts.total] are the length of the list, the
    three counts are taken over the list and add up to it; nothing is
    written. *)
Theorem list_submissions_shows_a_writer_their_own
    (u : Server.User) (st : option SubmissionStatus) (w : World) :
  Server.role u = js "writer" →
  ∃ data counts,
    Server.list_submissions (Some u) (SubmissionStatus_value <$> st) w
      = (Normal ({| Server.statusCode := 200;
                    Server.body :=
                      Server.SuccessListCounts (length data) counts data |},
                 []), w) ∧
    (∀ s, s ∈ data ↔
          s ∈ file w ∧ writerEmail s = Some (Server.email u) ∧
          (∀ t, st = Some t → status s = t)) ∧
    StronglySorted newest_first data ∧
    Storage.total counts = length data ∧
    (Storage.pending counts + Storage.approved counts
     + Storage.rejected counts = Storage.total counts)%nat.
Proof.
  intros Hrole. destruct u as [em ro]. simpl in Hrole. subst ro. simpl.
  pose proof byCreatedAtDesc_key as Hk.
  set (mine := λ sub : Submission, writerEmail sub = Some em).
  set (tally := λ l : list Submission,
    {| Storage.total := length l;
       Storage.pending :=
         length (filter (λ s, SubmissionStatus_value (status s)
                              = js "pending") l);
       Storage.approved :=
         length (filter (λ s, SubmissionStatus_value (status s)
                              = js "approved") l);
       Storage.rejected :=
         length (filter (λ s, SubmissionStatus_value (status s)
                              = js "rejected") l) |}).
  assert (∀ l,
    (Storage.pending (tally l) + Storage.approved (tally l)
     + Storage.rejected (tally l) = Storage.total (tally l))%nat) as Hsum.
  { intros l. simpl.
    change (js "pending") with (SubmissionStatus_value Pending).
    change (js "approved") with (SubmissionStatus_value Approved).
    change (js "rejected") with (SubmissionStatus_value Rejected).
    rewrite (length_filter_value Pending l l (reflexivity _)).
    rewrite (length_filter_value Approved l l (reflexivity _)).
    rewrite (length_filter_value Rejected l l (reflexivity _)).
    apply length_filter_by_status. }
  assert (∀ (P : Submission → Prop) `{!∀ s, Decision (P s)},
    let data := filter mine
                  (Array_sort Storage.byCreatedAtDesc (filter P (file w))) in
    (∀ s, s ∈ data ↔ s ∈ file w ∧ writerEmail s = Some em ∧ P s) ∧
    StronglySorted newest_first data) as Hdata.
  { intros P HP. simpl. rewrite (filter_Array_sort _ _ Hk). split.
    - intros s. rewrite (Array_sort_perm Storage.byCreatedAtDesc).
      rewrite !list_elem_of_filter. unfold mine. tauto.
    - by eapply Array_sort_sorted. }
  destruct st as [[]|].
  - destruct (Hdata (λ s, status s = Pending) _) as [Hin Hsorted].
    exists (filter mine (Array_sort Storage.byCreatedAtDesc
                           (filter (λ s, status s = Pending) (file w)))),
      (tally (filter mine (Array_sort Storage.byCreatedAtDesc
                             (filter (λ s, status s = Pending) (file w))))).
    split; [reflexivity|].
    split_and!; [|done|done|apply Hsum].
    intros s. rewrite Hin. split.
    + intros (? & ? & ?). split_and!; [done..|]. by intros t [= <-].
    + intros (? & ? & Ht). split_and!; [done..|]. by apply Ht.
  - destruct (Hdata (λ s, status s = Approved) _) as [Hin Hsorted].
    exists (filter mine (Array_sort Storage.byCreatedAtDesc
                           (filter (λ s, status s = Approved) (file w)))),
      (tally (filter mine (Array_sort Storage.byCreatedAtDesc
                             (filter (λ s, status s = Approved) (file w))))).
    split; [reflexivity|].
    split_and!; [|done|done|apply Hsum].
    intros s. rewrite Hin. split.
    + intros (? & ? & ?). split_and!; [done..|]. by intros t [= <-].
    + intros (? & ? & Ht). split_and!; [done..|]. by apply Ht.
  - destruct (Hdata (λ s, status s = Rejected) _) as [Hin Hsorted].
    exists (filter mine (Array_sort Storage.byCreatedAtDesc
                           (filter (λ s, status s = Rejected) (file w)))),
      (tally (filter mine (Array_sort Storage.byCreatedAtDesc
                             (filter (λ s, status s = Rejected) (file w))))).
    split; [reflexivity|].
    split_and!; [|done|done|apply Hsum].
    intros s. rewrite Hin. split.
    + intros (? & ? & ?). split_and!; [done..|]. by intros t [= <-].
    + intros (? & ? & Ht). split_and!; [done..|]. by apply Ht.
  - exists (filter mine (Array_sort Storage.byCreatedAtDesc (file w))),
      (tally (filter mine (Array_sort Storage.byCreatedAtDesc (file w)))).
    split; [reflexivity|].
    rewrite (filter_Array_sort _ _ Hk).
    split_and!; [|by eapply Array_sort_sorted|done|apply Hsum].
    intros s. rewrite (Array_sort_perm Storage.byCreatedAtDesc).
    rewrite list_elem_of_filter. unfold mine. split.
    + intros [? ?]. by split_and!.
    + intros (? & ? & _). by split.
Qed.

Lemma list_submissions_shows_a_writer_their_own_witness :
  Server.list_submissions (Some a_writer) (Some (js "approved")) w_desk
    = (Normal ({| Server.statusCode := 200;
                  Server.body :=
                    Server.SuccessListCounts 2
                      {| Storage.pending := 0; Storage.approved := 2;
                         Storage.rejected := 0; Storage.total := 2 |}
                      [own_approved_later; own_approved] |},
               []), w_desk) ∧
  ∃ data counts,
    Server.list_submissions (Some a_writer)
      (SubmissionStatus_value <$> Some Approved) w_desk
      = (Normal ({| Server.statusCode := 200;
                    Server.body :=
                      Server.SuccessListCounts (length data) counts data |},
                 []), w_desk) ∧
    (∀ s, s ∈ data ↔
          s ∈ file w_desk ∧ writerEmail s = Some (Server.email a_writer) ∧
          (∀ t, Some Approved = Some t → status s = t)) ∧
    StronglySorted newest_first data ∧
    Storage.total counts = length data ∧
    (Storage.pending counts + Storage.approved counts
     + Storage.rejected counts = Storage.total counts)%nat.
Proof.
  split; [vm_compute; reflexivity|].
  apply (list_submissions_shows_a_writer_their_own
           a_writer (Some Approved) w_desk).
  reflexivity.
Defined.

Lemma trim_not_nil_truthy (s : JsString) : trim s ≠ [] → truthy s = true.
Proof. by destruct s. Qed.

(** X30. [POST /api/submit].  A caller who is not a writer gets 403.  A
    writer who leaves out the title or the content, or sends one that
    is blank, gets 400, and nothing is stored or mailed.  A writer who
    sends both gets 201 with the new record, pending and carrying the
    writer's email, appended to the store, whatever the variables of
    the environment are.  Nothing is handed to the mail service when
    [MANAGER_EMAIL] is unset or empty; when it is set, one approval
    request for the new record is, and its two tokens verify as
    approval and as rejection of that very record (for the strings
    they sign, the digest holding no colon and the decoding undoing
    the encoding). *)
Theorem submit_answers crypto env user e1 e2 e3 e4
    (title0 content0 imageReference0 : option JsString)
    (embeddedImages0 : option (list JsString)) (w : World) :
  (Server.role <$> user ≠ Some (js "writer") →
   Server.submit crypto env user e1 e2 e3 e4
     title0 content0 imageReference0 embeddedImages0 w
   = (Normal ({| Server.statusCode := 403;
                 Server.body :=
                   Server.ErrorJson
                     (js "Access denied. Writer role required.") |},
              []), w)) ∧
  (Server.role <$> user = Some (js "writer") →
   blank title0 ∨ blank content0 →
   ∃ message,
     Server.submit crypto env user e1 e2 e3 e4
       title0 content0 imageReference0 embeddedImages0 w
     = (Normal ({| Server.statusCode := 400;
                   Server.body := Server.ErrorJson message |}, []), w)) ∧
  (Server.role <$> user = Some (js "writer") →
   ∀ t c,
     title0 = Some t → content0 = Some c → trim t ≠ [] → trim c ≠ [] →
     ∃ r mails w',
       r = created (Number_toString (clock w + Z.of_N e1))
             (ISO (clock w + Z.of_N e1 + Z.of_N e2))
             t c imageReference0 embeddedImages0 (Server.email <$> user) ∧
       Server.submit crypto env user e1 e2 e3 e4
         title0 content0 imageReference0 embeddedImages0 w
       = (Normal
            ({| Server.statusCode := 201;
                Server.body :=
                  Server.SuccessData (js "Submission created successfully")
                    r |},
             mails), w') ∧
       file w' = file w ++ [r] ∧
       status r = Pending ∧
       writerEmail r = Server.email <$> user ∧
       (Server.given (Server.env_MANAGER_EMAIL env) = false → mails = []) ∧
       (∀ m,
          Server.env_MANAGER_EMAIL env = Some m → m ≠ [] →
          ∃ approveToken rejectToken,
            mails = [Server.sendApprovalEmailWithTokens r m
                       approveToken rejectToken] ∧
            ((∀ a now,
                codec_ok crypto env
                  (Number_toString (clock w + Z.of_N e1) ++ js ":"
                     ++ Server.Action_value a ++ js ":"
                     ++ Number_toString now)) →
             Server.verifyEmailToken crypto env approveToken
               = Some (Number_toString (clock w + Z.of_N e1), Server.approve) ∧
             Server.verifyEmailToken crypto env rejectToken
               = Some (Number_toString (clock w + Z.of_N e1), Server.reject)))).
Proof.
  unfold Server.submit, Server.authenticateWriter. split_and!.
  - intros Hrole. by rewrite bool_decide_eq_true_2.
  - intros Hrole Hblank. rewrite bool_decide_eq_false_2 by (by intros []).
    unfold Server.guarded, Server.try_catch, bind.
    destruct title0 as [t|], content0 as [c|];
      try (eexists; reflexivity).
    destruct (negb (truthy t) || negb (truthy c)) eqn:Hempty;
      [eexists; reflexivity|].
    apply orb_false_elim in Hempty as [Ht Hc]. cbv beta iota.
    destruct (decide (trim t = [])) as [Hbt|Hbt].
    + rewrite createSubmission_blank_title by done. eexists; reflexivity.
    + destruct Hblank as [Hb|Hb]; [done|]. simpl in Hb.
      rewrite createSubmission_blank_content by done. eexists; reflexivity.
  - intros Hrole t c -> -> Ht Hc.
    rewrite bool_decide_eq_false_2 by (by intros []).
    unfold Server.guarded, Server.try_catch, bind.
    rewrite (trim_not_nil_truthy t Ht), (trim_not_nil_truthy c Hc).
    change (negb true || negb true) with false. cbv beta iota.
    rewrite createSubmission_accepts by done. cbv beta iota zeta.
    destruct env as [sec from [[|a m]|]].
    + eexists _, _, _. split; [reflexivity|]. split; [reflexivity|].
      split_and!; try done. by intros m [= <-] ?.
    + eexists _, _, _. split; [reflexivity|]. split; [reflexivity|].
      split_and!; try done.
      intros m' [= <-] _. eexists _, _. split; [reflexivity|].
      intros Hk. split; apply verify_generated;
        first [apply Number_toString_no_colon | apply Hk].
    + eexists _, _, _. split; [reflexivity|]. split; [reflexivity|].
      split_and!; done.
Qed.

(** With [MANAGER_EMAIL] set the approval request goes out with two
    tokens that verify; with no variable set the submission is stored
    all the same and nothing is mailed. *)
Lemma submit_answers_witness :
  (∃ r approveToken rejectToken w',
     r = created (js "1768730400001") (ISO (t0 + 1))
           (js " T ") (js "c") None None (Some (js "writer@example.com")) ∧
     Server.submit toy_crypto mail_env (Some a_writer) 1 0 2 3
       (Some (js " T ")) (Some (js "c")) None None w_created
     = (Normal
          ({| Server.statusCode := 201;
              Server.body :=
                Server.SuccessData (js "Submission created successfully") r |},
           [Server.sendApprovalEmailWithTokens r (js "manager@example.com")
              approveToken rejectToken]), w') ∧
     file w' = [created_at_t0; r] ∧
     Server.verifyEmailToken toy_crypto mail_env approveToken
       = Some (js "1768730400001", Server.approve) ∧
     Server.verifyEmailToken toy_crypto mail_env rejectToken
       = Some (js "1768730400001", Server.reject)) ∧
  (∃ r w',
     r = created (js "1768730400001") (ISO (t0 + 1))
           (js " T ") (js "c") None None (Some (js "writer@example.com")) ∧
     Server.submit toy_crypto no_env (Some a_writer) 1 0 2 3
       (Some (js " T ")) (Some (js "c")) None None w_created
     = (Normal
          ({| Server.statusCode := 201;
              Server.body :=
                Server.SuccessData (js "Submission created successfully") r |},
           []), w') ∧
     file w' = [created_at_t0; r]).
Proof.
  assert (trim (js " T ") ≠ []) as Ht by (vm_compute; discriminate).
  assert (trim (js "c") ≠ []) as Hc by (vm_compute; discriminate).
  split.
  - destruct (proj2 (proj2 (submit_answers toy_crypto mail_env (Some a_writer)
                1 0 2 3 (Some (js " T ")) (Some (js "c")) None None w_created))
                eq_refl (js " T ") (js "c") eq_refl eq_refl Ht Hc)
      as (r & mails & w' & Hr & Hs & Hf & _ & _ & _ & Hm).
    assert (js "manager@example.com" ≠ []) as Hne by (vm_compute; discriminate).
    destruct (Hm (js "manager@example.com") eq_refl Hne)
      as (approveToken & rejectToken & -> & Hv).
    destruct Hv as [Ha Hj].
    { intros a now. split; [decide_closed|reflexivity]. }
    exists r, approveToken, rejectToken, w'. split_and!; done.
  - destruct (proj2 (proj2 (submit_answers toy_crypto no_env (Some a_writer)
                1 0 2 3 (Some (js " T ")) (Some (js "c")) None None w_created))
                eq_refl (js " T ") (js "c") eq_refl eq_refl Ht Hc)
      as (r & mails & w' & Hr & Hs & Hf & _ & _ & Hn & _).
    rewrite (Hn eq_refl) in Hs. exists r, w'. split_and!; done.
Defined.
